(** * SimpleRTSPCameraRecorder: supervision, watchdog and retention

    A shallow embedding of [main.py]: the exit-code policy and the staged
    shutdown of [FFmpegRecorder], the file watchdog [_monitor_process] with
    the directory scan [find_latest_mkv] and the file-event handler
    [on_closed], and the retention pass [CleanupManager._cleanup_cycle].

    Conventions.  Python integers are [Z].  Timestamps ([time.time()],
    [st_mtime], [st_ctime]) are points of a totally ordered clock, taken in
    [Z] (ticks); only their order and differences are used by the code.
    Paths and file names are [string]s.  Everything the operating system
    answers (directory listings, sizes, the clock, the behaviour of the
    child process) is an explicit argument of the embedded functions, and
    so are the library functions whose tables are no part of the program:
    [str.lower] (Unicode case mapping), [datetime.fromtimestamp] (the
    local time zone) and [os.path.normpath]. *)

From Stdlib Require Import ZArith List Bool Lia String Ascii.
From Stdlib Require Import Sorting.Sorted Sorting.Permutation.
Import ListNotations.

Local Open Scope string_scope.
Local Open Scope list_scope.
Local Open Scope Z_scope.

(** ** Events and shared flags *)

Inductive log_level := INFO | WARNING | ERROR.

(** The places of [main.py] that call [restart_event.set()]. *)
Inductive site :=
| ExitCodeSite        (* _handle_exit_code *)
| CreateTimeoutSite   (* _monitor_process, tracked file absent, nothing found *)
| StallSite           (* _monitor_process, size unchanged past the timeout *)
| VanishedSite.       (* _monitor_process, FileNotFoundError handler *)

Inductive event :=
| Log (l : log_level)
| SetRestart (s : site)
| Sleep (d : Z).

Definition site_eqb (a b : site) : bool :=
  match a, b with
  | ExitCodeSite, ExitCodeSite
  | CreateTimeoutSite, CreateTimeoutSite
  | StallSite, StallSite
  | VanishedSite, VanishedSite => true
  | _, _ => false
  end.

Definition is_restart (e : event) : bool :=
  match e with SetRestart _ => true | _ => false end.

Definition is_restart_at (s : site) (e : event) : bool :=
  match e with SetRestart s' => site_eqb s s' | _ => false end.

(** Number of [restart_event.set()] calls in a trace. *)
Definition restart_requests (tr : list event) : nat :=
  List.length (filter is_restart tr).

(** The fields of [FFmpegRecorder] shared between its threads. *)
Record recorder := mkRecorder {
  current_file : option string;
  last_check_time : Z;
  last_size : Z;
  stop_event : bool;
  restart_event : bool
}.

Definition set_restart (r : recorder) : recorder :=
  mkRecorder (current_file r) (last_check_time r) (last_size r)
             (stop_event r) true.

Definition clear_restart (r : recorder) : recorder :=
  mkRecorder (current_file r) (last_check_time r) (last_size r)
             (stop_event r) false.

(** [FFmpegRecorder.__init__] at time [now]. *)
Definition init_recorder (now : Z) : recorder :=
  mkRecorder None now 0 false false.

(** A recorder that tracks [path], with its last progress at [t] and the
    last observed size [size]; no flag is set. *)
Definition tracking (path : string) (t size : Z) : recorder :=
  mkRecorder (Some path) t size false false.

(** ** Exit-code policy *)

Module ExitCode.

(** [code in (255, 137)] *)
Definition expected_code (code : Z) : bool :=
  (code =? 255) || (code =? 137).

(** [FFmpegRecorder._handle_exit_code] *)
Definition _handle_exit_code (code : Z) (r : recorder)
  : list event * recorder :=
  if expected_code code then
    ([Log INFO], r)
  else if negb (stop_event r) then
    ([Log ERROR; SetRestart ExitCodeSite], set_restart r)
  else
    ([Log ERROR], r).

End ExitCode.

(** ** Staged shutdown of the capture process *)

Module Shutdown.

Inductive signal := SIGINT | CTRL_C_EVENT | SIGTERM | SIGKILL.

Inductive action :=
| StdinWrite            (* process.stdin.write(b"q\n") *)
| StdinFlush
| SendSignal (s : signal)
| Wait (timeout : option Z)
| LogFailure.

(** How the child answers.  [Some d]: it exits [d] ticks after the
    stimulus; [None]: it ignores the stimulus.  A kill cannot be ignored. *)
Record behaviour := mkBehaviour {
  has_stdin : bool;        (* process.stdin is not None *)
  stdin_broken : bool;     (* the pipe is broken: flush() raises *)
  on_quit : option Z;
  on_interrupt : option Z;
  on_terminate : option Z;
  on_kill : Z
}.

Record world := mkWorld {
  clock : Z;
  exit_at : option Z;              (* when the child ends, once decided *)
  trace : list (Z * action)        (* newest first *)
}.

Inductive exn := TimeoutExpired | OtherException.

Inductive outcome (A : Type) :=
| Return (a : A)
| Raise (e : exn)
| Blocked.                          (* wait() on a child that never ends *)
Arguments Return {A} a.
Arguments Raise {A} e.
Arguments Blocked {A}.

Definition M (A : Type) := world -> outcome A * world.

Definition ret {A} (a : A) : M A := fun w => (Return a, w).
Definition raise {A} (e : exn) : M A := fun w => (Raise e, w).

Definition bind {A B} (m : M A) (k : A -> M B) : M B :=
  fun w => match m w with
           | (Return a, w') => k a w'
           | (Raise e, w') => (Raise e, w')
           | (Blocked, w') => (Blocked, w')
           end.

(** [try: body  except ...: handler e] *)
Definition try_except {A} (body : M A) (handler : exn -> M A) : M A :=
  fun w => match body w with
           | (Raise e, w') => handler e w'
           | r => r
           end.

Notation "x <- m ;; k" := (bind m (fun x => k))
  (at level 61, m at next level, right associativity).
Notation "m ;;; k" := (bind m (fun _ => k))
  (at level 61, right associativity).

Definition emit (a : action) : M unit :=
  fun w => (Return tt, mkWorld (clock w) (exit_at w) ((clock w, a) :: trace w)).

(** [process.poll() is None] *)
Definition running (w : world) : bool :=
  match exit_at w with
  | None => true
  | Some e => clock w <? e
  end.

Definition poll_is_none : M bool := fun w => (Return (running w), w).

(** The child receives a stimulus it answers with [resp]. *)
Definition stimulate (resp : option Z) : M unit :=
  fun w =>
    if running w then
      match resp with
      | None => (Return tt, w)
      | Some d =>
          let e := clock w + d in
          let e' := match exit_at w with
                    | None => e
                    | Some e0 => Z.min e0 e
                    end in
          (Return tt, mkWorld (clock w) (Some e') (trace w))
      end
    else (Return tt, w).

Definition response (b : behaviour) (s : signal) : option Z :=
  match s with
  | SIGINT | CTRL_C_EVENT => on_interrupt b
  | SIGTERM => on_terminate b
  | SIGKILL => Some (on_kill b)
  end.

(** [process.stdin] is a buffered writer: [write(b"q\n")] only fills the
    buffer and returns. *)
Definition stdin_write : M unit := emit StdinWrite.

(** [process.stdin.flush()] hands the buffer to the pipe: on a broken pipe
    it raises [BrokenPipeError], otherwise the child receives the quit
    command. *)
Definition stdin_flush (b : behaviour) : M unit :=
  emit StdinFlush ;;;
  if stdin_broken b then raise OtherException else stimulate (on_quit b).

(** [process.send_signal], [process.terminate], [process.kill] *)
Definition send_signal (b : behaviour) (s : signal) : M unit :=
  emit (SendSignal s) ;;; stimulate (response b s).

(** [process.wait(timeout=...)] *)
Definition wait (timeout : option Z) : M unit :=
  emit (Wait timeout) ;;;
  fun w =>
    match timeout, exit_at w with
    | Some t, Some e =>
        if e <=? clock w + t
        then (Return tt, mkWorld (Z.max (clock w) e) (exit_at w) (trace w))
        else (Raise TimeoutExpired,
              mkWorld (clock w + t) (exit_at w) (trace w))
    | Some t, None =>
        (Raise TimeoutExpired, mkWorld (clock w + t) (exit_at w) (trace w))
    | None, Some e =>
        (Return tt, mkWorld (Z.max (clock w) e) (exit_at w) (trace w))
    | None, None => (Blocked, w)
    end.

(** [FFmpegRecorder._terminate_ffmpeg]; [has_process] is the truth value of
    [self.process], [win32] that of [sys.platform == "win32"]. *)
Definition _terminate_ffmpeg (win32 has_process : bool) (b : behaviour)
  : M unit :=
  alive <- poll_is_none ;;
  if has_process && alive then
    try_except
      ((if has_stdin b then
          stdin_write ;;; stdin_flush b ;;; wait (Some 15)
        else ret tt) ;;;
       send_signal b (if win32 then CTRL_C_EVENT else SIGINT) ;;;
       wait (Some 5))
      (fun e =>
         match e with
         | TimeoutExpired =>
             send_signal b SIGTERM ;;;
             try_except (wait (Some 5))
               (fun e' =>
                  match e' with
                  | TimeoutExpired => send_signal b SIGKILL ;;; wait None
                  | OtherException => raise OtherException
                  end)
         | OtherException => emit LogFailure
         end)
  else ret tt.

(** The actions of a shutdown started at [start] on a running child, oldest
    first, each with the time it was issued. *)
Definition shutdown_trace (win32 : bool) (b : behaviour) (start : Z)
  : list (Z * action) :=
  rev (trace (snd (_terminate_ffmpeg win32 true b (mkWorld start None [])))).

Definition shutdown_outcome (win32 : bool) (b : behaviour) (start : Z)
  : outcome unit :=
  fst (_terminate_ffmpeg win32 true b (mkWorld start None [])).

Definition action_eqb_signal (s : signal) (a : action) : bool :=
  match a, s with
  | SendSignal SIGINT, SIGINT
  | SendSignal CTRL_C_EVENT, CTRL_C_EVENT
  | SendSignal SIGTERM, SIGTERM
  | SendSignal SIGKILL, SIGKILL => true
  | _, _ => false
  end.

(** Times at which signal [s] was sent. *)
Definition sent_at (s : signal) (tr : list (Z * action)) : list Z :=
  map fst (filter (fun p => action_eqb_signal s (snd p)) tr).

(** A child that ignores the quit command and the interrupt, and ends one
    tick after a terminate. *)
Definition stubborn : behaviour :=
  mkBehaviour true false None None (Some 1) 0.

End Shutdown.

(** ** Paths and the output directory *)

Module Fs.

(** Python's [str.lower] follows the Unicode case tables (the Kelvin sign
    U+212A, for one, becomes [k]).  The tables are no part of the program,
    so the embedded functions take [str.lower] as their argument [lower].
    [ascii_lower] is the mapping on strings of ASCII characters, on which
    the concrete examples are run. *)
Definition lower_ascii (c : ascii) : ascii :=
  let n := nat_of_ascii c in
  if ((65 <=? n) && (n <=? 90))%nat then ascii_of_nat (n + 32) else c.

Fixpoint ascii_lower (s : string) : string :=
  match s with
  | EmptyString => EmptyString
  | String c s' => String (lower_ascii c) (ascii_lower s')
  end.

(** [s.endswith(suffix)] *)
Definition endswith (s suffix : string) : bool :=
  let n := String.length s in
  let m := String.length suffix in
  ((m <=? n)%nat && (substring (n - m) m s =? suffix)%string)%bool.

(** [name.lower().endswith(".mkv")] *)
Definition is_mkv (lower : string -> string) (name : string) : bool :=
  endswith (lower name) ".mkv".

(** Lower-casing leaves a trailing [.mkv] where it is, as [str.lower]
    does: the four characters are their own lower case. *)
Definition keeps_extension (lower : string -> string) : Prop :=
  forall stem : string, endswith (lower (stem ++ ".mkv")%string) ".mkv" = true.

(** [os.path.join(dir, name)] for a [name] returned by [os.listdir]: such
    a name contains no separator, so it is never absolute. *)
Definition path_join (dir name : string) : string :=
  if ((dir =? "")%string || endswith dir "/")%bool
  then (dir ++ name)%string
  else (dir ++ "/" ++ name)%string.

(** What [os.stat] tells about a file. *)
Record file_stat := mkStat {
  st_size : Z;
  st_ctime : Z;
  st_mtime : Z
}.

(** One name of [os.listdir(output_dir)] with what a later [os.stat] or
    [os.path.getmtime] answers; [None]: the file is gone by then. *)
Record dirent := mkDirent {
  d_name : string;
  d_stat : option file_stat
}.

End Fs.

(** ** Retention *)

Module Cleanup.
Import Fs.

(** An element of [files]: [(file_time, filepath, st_size)].  The sort key
    [file_time] is the value of [datetime.fromtimestamp(st_ctime)]: a naive
    local wall-clock time, taken in [Z]; only its order is used. *)
Definition candidate := (Z * string * Z)%type.

Definition file_time (c : candidate) : Z := fst (fst c).
Definition filepath (c : candidate) : string := snd (fst c).
Definition size (c : candidate) : Z := snd c.

Inductive reason := EmptyFile | CountLimit | SizeLimit.

Inductive cleanup_event :=
| Removed (why : reason) (path : string)    (* os.remove succeeded *)
| RemoveFailed (path : string)             (* os.remove raised, logged *)
| Unprocessable (name : string).           (* the scan's except branch *)

Record cstate := mkCstate {
  files : list candidate;
  total_size : Z;
  log : list cleanup_event                 (* oldest first *)
}.

Inductive exc := IndexError | FileNotFoundError.

Inductive result :=
| Completed (st : cstate)
| Raised (e : exc) (st : cstate).

Section Cycle.

(** [str.lower] *)
Variable lower : string -> string.
(** [datetime.fromtimestamp] in the zone of the process; [None]: it raises
    ([ValueError], [OverflowError] or [OSError] on a timestamp out of
    range).  It need not be increasing (a zone that sets its clocks back)
    nor injective (it rounds to the microsecond). *)
Variable fromtimestamp : Z -> option Z.
(** [args.output_dir], [args.max_files], [args.max_size]. *)
Variable output_dir : string.
Variable max_files : Z.
Variable max_size : Z.
(** [can_remove p]: [os.remove(p)] succeeds. *)
Variable can_remove : string -> bool.

(** The body of the listing loop, lines 269-285. *)
Definition scan_step (st : cstate) (e : dirent) : cstate :=
  let path := path_join output_dir (d_name e) in
  if negb (is_mkv lower (d_name e)) then st
  else
    match d_stat e with
    | None => mkCstate (files st) (total_size st)
                       (log st ++ [Unprocessable (d_name e)])
    | Some s =>
        if st_size s =? 0 then
          if can_remove path then
            mkCstate (files st) (total_size st)
                     (log st ++ [Removed EmptyFile path])
          else
            mkCstate (files st) (total_size st)
                     (log st ++ [Unprocessable (d_name e)])
        else
          match fromtimestamp (st_ctime s) with
          | Some file_time =>
              mkCstate (files st ++ [(file_time, path, st_size s)])
                       (total_size st + st_size s)
                       (log st)
          | None => mkCstate (files st) (total_size st)
                             (log st ++ [Unprocessable (d_name e)])
          end
    end.

Definition scan (listing : list dirent) : cstate :=
  fold_left scan_step listing (mkCstate [] 0 []).

(** [files.sort(key=lambda x: x[0])]: a stable sort on the first component.
    Elements are inserted from the right, each before the first element
    whose key is not smaller, so equal keys keep their order. *)
Fixpoint insert_by_time (c : candidate) (l : list candidate)
  : list candidate :=
  match l with
  | [] => [c]
  | d :: l' =>
      if file_time c <=? file_time d then c :: d :: l'
      else d :: insert_by_time c l'
  end.

Definition sort_by_time (l : list candidate) : list candidate :=
  fold_right insert_by_time [] l.

(** The [try: os.remove(oldest[1]) ...] after [oldest = files.pop(0)]:
    the new [total_size] and log. *)
Definition evict (why : reason) (oldest : candidate) (total : Z)
           (lg : list cleanup_event) : Z * list cleanup_event :=
  if can_remove (filepath oldest) then
    (total - size oldest, lg ++ [Removed why (filepath oldest)])
  else
    (total, lg ++ [RemoveFailed (filepath oldest)]).

(** [while len(files) > max_files: ...]; [pop(0)] on an empty list raises
    [IndexError]. *)
Fixpoint count_loop (fl : list candidate) (total : Z)
         (lg : list cleanup_event) : result :=
  if Z.of_nat (List.length fl) >? max_files then
    match fl with
    | [] => Raised IndexError (mkCstate [] total lg)
    | oldest :: rest =>
        let (total', lg') := evict CountLimit oldest total lg in
        count_loop rest total' lg'
    end
  else Completed (mkCstate fl total lg).

(** [while total_size > max_size and files: ...] *)
Fixpoint size_loop (fl : list candidate) (total : Z)
         (lg : list cleanup_event) : cstate :=
  match fl with
  | [] => mkCstate [] total lg
  | oldest :: rest =>
      if total >? max_size then
        let (total', lg') := evict SizeLimit oldest total lg in
        size_loop rest total' lg'
      else mkCstate fl total lg
  end.

(** The candidate an entry contributes, if any: its name passes the
    extension test, [os.stat] answers, the file is not empty and its
    creation time converts. *)
Definition candidate_of (e : dirent) : list candidate :=
  if is_mkv lower (d_name e) then
    match d_stat e with
    | Some s =>
        if st_size s =? 0 then []
        else
          match fromtimestamp (st_ctime s) with
          | Some file_time =>
              [(file_time, path_join output_dir (d_name e), st_size s)]
          | None => []
          end
    | None => []
    end
  else [].

(** The candidate [c] stands for a listed segment created at [t]. *)
Definition created_at (listing : list dirent) (c : candidate) (t : Z)
  : Prop :=
  exists e s, In e listing /\ d_stat e = Some s /\ st_ctime s = t /\
              In c (candidate_of e).

(** [c] stands for a segment created no later than the segment [d] stands
    for. *)
Definition created_before_eq (listing : list dirent) (c d : candidate)
  : Prop :=
  exists tc td, created_at listing c tc /\ created_at listing d td /\
                tc <= td.

(** The conversion is strictly increasing on the creation times of the
    listing: no change of the clocks and no rounding to the same instant
    between two of them. *)
Definition increasing_on (listing : list dirent) : Prop :=
  forall e1 s1 k1 e2 s2 k2,
    In e1 listing -> d_stat e1 = Some s1 ->
    fromtimestamp (st_ctime s1) = Some k1 ->
    In e2 listing -> d_stat e2 = Some s2 ->
    fromtimestamp (st_ctime s2) = Some k2 ->
    st_ctime s1 < st_ctime s2 -> k1 < k2.

(** [CleanupManager._cleanup_cycle]; [listing] is what [os.listdir]
    answers, [None] when it raises because the directory is missing. *)
Definition _cleanup_cycle (listing : option (list dirent)) : result :=
  match listing with
  | None => Raised FileNotFoundError (mkCstate [] 0 [])
  | Some names =>
      let st := scan names in
      match count_loop (sort_by_time (files st)) (total_size st) (log st) with
      | Raised e st' => Raised e st'
      | Completed st' =>
          Completed (size_loop (files st') (total_size st') (log st'))
      end
  end.

End Cycle.

(** Order of the sort key. *)
Definition older_eq (c d : candidate) : Prop := file_time c <= file_time d.

Definition at_time (t : Z) (c : candidate) : bool := file_time c =? t.

Definition final (r : result) : cstate :=
  match r with Completed st | Raised _ st => st end.

(** Every path the cycle deleted, in order. *)
Fixpoint deleted (lg : list cleanup_event) : list string :=
  match lg with
  | [] => []
  | Removed _ p :: lg' => p :: deleted lg'
  | _ :: lg' => deleted lg'
  end.

(** Paths evicted by the two retention loops, in order. *)
Fixpoint evicted (lg : list cleanup_event) : list string :=
  match lg with
  | [] => []
  | Removed CountLimit p :: lg' | Removed SizeLimit p :: lg' =>
      p :: evicted lg'
  | _ :: lg' => evicted lg'
  end.

(** Paths the two retention loops popped and tried to remove, in order. *)
Fixpoint attempted (lg : list cleanup_event) : list string :=
  match lg with
  | [] => []
  | Removed CountLimit p :: lg' | Removed SizeLimit p :: lg'
  | RemoveFailed p :: lg' => p :: attempted lg'
  | _ :: lg' => attempted lg'
  end.

Definition sum_sizes (l : list candidate) : Z :=
  fold_right (fun c acc => size c + acc) 0 l.

(** The list [files] once sorted, line 288: the eviction order. *)
Definition ordered_candidates (lower : string -> string)
           (fromtimestamp : Z -> option Z) (output_dir : string)
           (can_remove : string -> bool) (listing : list dirent)
  : list candidate :=
  sort_by_time (files (scan lower fromtimestamp output_dir can_remove listing)).

(** Every [os.remove] the retention loops can attempt succeeds. *)
Definition removable (can_remove : string -> bool) (l : list candidate)
  : Prop :=
  Forall (fun c => can_remove (filepath c) = true) l.

(** No [os.remove] fails. *)
Definition always : string -> bool := fun _ => true.

(** The order of the data model's words, read on the sort keys: time
    ascending, equal times by path. *)
Definition time_then_path (c d : candidate) : Prop :=
  file_time c < file_time d \/
  (file_time c = file_time d /\ (filepath c <=? filepath d)%string = true).

Definition ordered_by_time_then_path (l : list candidate) : Prop :=
  StronglySorted time_then_path l.

(** A regular file of [size] bytes created and last written at [t]. *)
Definition plain_file (name : string) (t size : Z) : dirent :=
  mkDirent name (Some (mkStat size t t)).

(** Two segments created at the same instant, listed [b] before [a]. *)
Definition tied_listing : list dirent :=
  [plain_file "b.mkv" 5 1; plain_file "a.mkv" 5 1].

(** Five segments of 10 to 50 bytes, oldest first. *)
Definition five_files : list dirent :=
  [plain_file "1.mkv" 1 10; plain_file "2.mkv" 2 20; plain_file "3.mkv" 3 30;
   plain_file "4.mkv" 4 40; plain_file "5.mkv" 5 50].

(** An old segment and the segment being written, already 100 bytes. *)
Definition live_listing : list dirent :=
  [plain_file "old.mkv" 1 10; plain_file "live.mkv" 2 100].

(** The segment being written was just created and is still empty. *)
Definition fresh_listing : list dirent :=
  [plain_file "old.mkv" 1 10; plain_file "fresh.mkv" 2 0].

(** Two older segments and the segment being written. *)
Definition busy_listing : list dirent :=
  [plain_file "old.mkv" 1 10; plain_file "mid.mkv" 2 30;
   plain_file "live.mkv" 3 100].

(** [datetime.fromtimestamp] on whole ticks in a zone that never changes
    its clocks and lies on the meridian: the identity. *)
Definition utc (t : Z) : option Z := Some t.

(** [datetime.fromtimestamp] on whole seconds in the zone Europe/Berlin
    around the end of summer time in 2025, as seconds of wall-clock time:
    at 1761440400 (2025-10-26 01:00 UTC) the offset drops from two hours to
    one, so wall-clock 02:00 to 03:00 comes twice. *)
Definition berlin_autumn_2025 (t : Z) : option Z :=
  Some (if t <? 1761440400 then t + 7200 else t + 3600).

(** Two segments created forty minutes apart, at 02:30 summer time and at
    02:10 winter time of that night. *)
Definition dst_listing : list dirent :=
  [plain_file "old.mkv" 1761438600 10; plain_file "new.mkv" 1761441000 10].

End Cleanup.

(** ** File discovery and the watchdog *)

Module Watch.
Import Fs.

(** Python truthiness of a value that is [None] or a string. *)
Definition truthy (p : option string) : option string :=
  match p with
  | Some s => if (s =? "")%string then None else Some s
  | None => None
  end.

(** The loop of [find_latest_mkv], lines 70-79. *)
Fixpoint latest_loop (lower : string -> string) (output_dir : string)
         (names : list dirent)
         (latest_file : option string) (latest_mtime : Z) : option string :=
  match names with
  | [] => latest_file
  | e :: rest =>
      if is_mkv lower (d_name e) then
        match d_stat e with
        | Some s =>
            if st_mtime s >? latest_mtime
            then latest_loop lower output_dir rest
                             (Some (path_join output_dir (d_name e)))
                             (st_mtime s)
            else latest_loop lower output_dir rest latest_file latest_mtime
        | None => latest_loop lower output_dir rest latest_file latest_mtime
        end
      else latest_loop lower output_dir rest latest_file latest_mtime
  end.

(** [FFmpegRecorder.find_latest_mkv]; [None] as listing: [os.listdir]
    raises [FileNotFoundError]. *)
Definition find_latest_mkv (lower : string -> string) (output_dir : string)
           (listing : option (list dirent)) : option string :=
  match listing with
  | None => None
  | Some names => latest_loop lower output_dir names None 0
  end.

(** *** The file-event handler *)

Record fs_event := mkEvent {
  is_directory : bool;
  src_path : string
}.

Section Handler.

(** [str.lower] *)
Variable lower : string -> string.
(** [os.path.normpath] *)
Variable normpath : string -> string.

(** [FileEventHandler.on_closed] at time [now]; the handler's own field
    [last_file] is threaded next to the recorder. *)
Definition on_closed (now : Z) (ev : fs_event)
           (last_file : option string) (r : recorder)
  : option string * recorder :=
  if (negb (is_directory ev) && is_mkv lower (src_path ev))%bool then
    let current := normpath (src_path ev) in
    match last_file with
    | Some l =>
        if (current =? l)%string then (last_file, r)
        else (Some current,
              mkRecorder (Some current) now (last_size r)
                         (stop_event r) (restart_event r))
    | None =>
        (Some current,
         mkRecorder (Some current) now (last_size r)
                    (stop_event r) (restart_event r))
    end
  else (last_file, r).

End Handler.

(** *** The watchdog *)

Record config := mkConfig {
  output_dir : string;
  timeout : Z;
  file_timeout : Z;
  monitor_interval : Z
}.

(** What the environment answers during one iteration of the loop.  The
    other threads set the two flags; [start_recording] also clears
    [restart_event] (line 92), which an iteration can witness when the
    [join(timeout=30)] of line 147 has given up on this thread. *)
Record observation := mkObs {
  o_stop : bool;       (* another thread sets stop_event meanwhile *)
  o_restart : bool;    (* restart_event is set by another thread meanwhile,
                          after the clearing if there is one *)
  o_now : Z;           (* time.time() *)
  o_exists : bool;     (* os.path.exists(target_file) *)
  o_size : option Z;   (* os.path.getsize(target_file), None: not found *)
  o_listing : option (list dirent);   (* os.listdir inside the scan *)
  o_latest_size : option Z; (* os.path.getsize(latest_file) *)
  o_clear : bool       (* start_recording clears restart_event meanwhile *)
}.

Inductive control :=
| Continue
| Died.        (* FileNotFoundError outside any try: the thread ends *)

Record step := mkStep {
  s_rec : recorder;
  s_events : list event;
  s_control : control
}.

Definition adopt (r : recorder) (f : string) (now : Z) : recorder :=
  mkRecorder (Some f) now (last_size r) (stop_event r) (restart_event r).

Definition with_size (r : recorder) (sz : Z) : recorder :=
  mkRecorder (current_file r) (last_check_time r) sz
             (stop_event r) (restart_event r).

Definition progress (r : recorder) (sz now : Z) : recorder :=
  mkRecorder (current_file r) now sz (stop_event r) (restart_event r).

Section Monitor.

(** [str.lower] *)
Variable lower : string -> string.
Variable cfg : config.
(** [start_time]: the clock when [_monitor_process] was entered. *)
Variable start_time : Z.

(** The [except FileNotFoundError] clause followed by the final sleep,
    lines 201-206. *)
Definition not_found_handler (file_created : bool) (r : recorder)
           (evs : list event) : step :=
  if file_created then
    mkStep (set_restart r)
           (evs ++ [Log ERROR; SetRestart VanishedSite;
                    Sleep (monitor_interval cfg)])
           Continue
  else
    mkStep r (evs ++ [Sleep (monitor_interval cfg)]) Continue.

(** The scan reports a file to switch to: [latest_file and
    latest_file != target_file]. *)
Definition other_file (target : string) (o : observation) : option string :=
  match truthy (find_latest_mkv lower (output_dir cfg) (o_listing o)) with
  | Some f => if (f =? target)%string then None else Some f
  | None => None
  end.

(** One iteration of the [while] of [_monitor_process], lines 155-206. *)
Definition monitor_body (file_created : bool) (o : observation)
           (r : recorder) : step :=
  match truthy (current_file r) with
  | None => mkStep r [Sleep 1] Continue
  | Some target_file =>
      if negb (o_exists o) then
        match truthy (find_latest_mkv lower (output_dir cfg) (o_listing o)) with
        | Some latest_file =>
            let r1 := adopt r latest_file (o_now o) in
            match o_latest_size o with
            | Some sz => mkStep (with_size r1 sz) [Log INFO] Continue
            | None => mkStep r1 [Log INFO] Died
            end
        | None =>
            if o_now o - start_time >? file_timeout cfg then
              mkStep (set_restart r)
                     [Log ERROR; SetRestart CreateTimeoutSite; Sleep 1]
                     Continue
            else mkStep r [Sleep 1] Continue
        end
      else
        match o_size o with
        | None => not_found_handler file_created r []
        | Some current_size =>
            if current_size >? last_size r then
              mkStep (progress r current_size (o_now o))
                     [Sleep (monitor_interval cfg)] Continue
            else
              match other_file target_file o with
              | Some latest_file =>
                  let r1 := adopt r latest_file (o_now o) in
                  match o_latest_size o with
                  | Some sz => mkStep (with_size r1 sz) [Log INFO] Continue
                  | None => not_found_handler file_created r1 [Log INFO]
                  end
              | None =>
                  if o_now o - last_check_time r >? timeout cfg then
                    mkStep (set_restart r)
                           [Log ERROR; SetRestart StallSite;
                            Sleep (monitor_interval cfg)]
                           Continue
                  else mkStep r [Sleep (monitor_interval cfg)] Continue
              end
        end
  end.

(** What the other threads did to the flags while the iteration ran.
    [stop_event] is only ever set.  [restart_event] is set by other
    threads and cleared by [start_recording]: after a clearing it holds
    what was set since. *)
Definition observe_flags (o : observation) (r : recorder) : recorder :=
  mkRecorder (current_file r) (last_check_time r) (last_size r)
             (stop_event r || o_stop o)
             (if o_clear o then o_restart o
              else restart_event r || o_restart o).

Inductive status :=
| Exited      (* the loop test failed *)
| Crashed     (* uncaught exception *)
| Polling.    (* still in the loop when the observations end *)

Record run := mkRun {
  r_rec : recorder;
  r_created : bool;         (* the local file_created *)
  r_trace : list event;
  r_status : status
}.

(** The [while] loop over the successive observations.  The local
    [file_created] is carried along; no statement of the loop assigns it. *)
Fixpoint monitor_loop (file_created : bool) (obs : list observation)
         (r : recorder) : run :=
  if (stop_event r || restart_event r)%bool then
    mkRun r file_created [] Exited
  else
    match obs with
    | [] => mkRun r file_created [] Polling
    | o :: rest =>
        let s := monitor_body file_created o r in
        match s_control s with
        | Died => mkRun (s_rec s) file_created (s_events s) Crashed
        | Continue =>
            let k := monitor_loop file_created rest
                                  (observe_flags o (s_rec s)) in
            mkRun (r_rec k) (r_created k) (s_events s ++ r_trace k)
                  (r_status k)
        end
    end.

(** The number of iterations during which [start_recording] cleared the
    restart flag. *)
Definition clearings (obs : list observation) : nat :=
  List.length (filter o_clear obs).

(** [FFmpegRecorder._monitor_process]: [file_created = False], then the
    loop. *)
Definition _monitor_process (obs : list observation) (r : recorder) : run :=
  monitor_loop false obs r.

(** A run of polls of the tracked file [target] that shows steady growth:
    the file is there, its size never decreases, and a poll that finds the
    size unchanged finds no other file to switch to and comes no later
    than the stall timeout after the last progress.  [since] is the time
    of the last progress, [seen] the last observed size. *)
Fixpoint steady (target : string) (since seen : Z)
         (obs : list observation) : Prop :=
  match obs with
  | [] => True
  | o :: rest =>
      o_exists o = true /\
      match o_size o with
      | None => False
      | Some sz =>
          seen <= sz /\
          if seen <? sz then steady target (o_now o) sz rest
          else other_file target o = None /\
               o_now o - since <= timeout cfg /\
               steady target since seen rest
      end
  end.

End Monitor.

(** The creation time of [path] according to a listing of [dir]. *)
Fixpoint ctime_in (dir : string) (names : list dirent) (path : string)
  : option Z :=
  match names with
  | [] => None
  | e :: rest =>
      if (path_join dir (d_name e) =? path)%string then
        match d_stat e with
        | Some s => Some (st_ctime s)
        | None => None
        end
      else ctime_in dir rest path
  end.

(** Segment [a] was created first and written last; [b] was created
    later. *)
Definition two_segments : list dirent :=
  [mkDirent "a.mkv" (Some (mkStat 100 1 10));
   mkDirent "b.mkv" (Some (mkStat 100 2 5))].

Definition default_config : config := mkConfig "rec" 10 10 30.

(** The same limits with a poll every 5 ticks. *)
Definition brisk_config : config := mkConfig "rec" 10 10 5.

(** Two segments created and last written at the same instant, [a] listed
    first. *)
Definition tied_segments : list dirent :=
  [mkDirent "a.mkv" (Some (mkStat 100 5 5));
   mkDirent "b.mkv" (Some (mkStat 100 5 5))].

(** A poll at [now] that finds the tracked file with [size] bytes and the
    directory as [names]. *)
Definition poll (now size : Z) (names : list dirent) : observation :=
  mkObs false false now true (Some size) (Some names) (Some 100) false.

(** A poll at [now] that finds the tracked file with [size] bytes, as the
    one segment [name] of the directory, created at 1 and written just
    now. *)
Definition growing (name : string) (now size : Z) : observation :=
  mkObs false false now true (Some size)
        (Some [mkDirent name (Some (mkStat size 1 now))]) (Some size) false.

End Watch.

(** ** The directory after a cycle *)

Module After.
Import Fs Cleanup.

(** [p in paths] *)
Definition mem (p : string) (paths : list string) : bool :=
  existsb (String.eqb p) paths.

(** The listing once the paths in [gone] have been removed from the
    directory [output_dir]. *)
Definition dir_after (output_dir : string) (gone : list string)
           (listing : list dirent) : list dirent :=
  filter (fun e => negb (mem (path_join output_dir (d_name e)) gone)) listing.

(** Every [os.remove] on a file of [l] fails. *)
Definition unremovable (can_remove : string -> bool) (l : list candidate)
  : Prop :=
  Forall (fun c => can_remove (filepath c) = false) l.

End After.

(** ** The recording loop *)

Module Supervisor.
Import Fs ExitCode.

(** What the wait loop of a cycle sees at one pass: the child's
    [poll()], and whether another thread has set a flag by then. *)
Record tick := mkTick {
  t_return_code : option Z;
  t_restart : bool;
  t_stop : bool
}.

Inductive sup_event :=
| Spawned (path : string)      (* Popen returned; the path of the cycle *)
| TerminateCalled              (* _terminate_ffmpeg() *)
| ExitHandled (code : Z)       (* _handle_exit_code(code) *)
| Slept                        (* time.sleep(1) *)
| RestartCleared               (* restart_event.clear() *)
| CycleFailed.                 (* the except branch of start_recording *)

Inductive cycle_end :=
| Broke        (* the wait loop was left by a break *)
| Threw        (* an exception left the cycle *)
| Waiting.     (* still in the wait loop when the ticks end *)

(** Lines 102-105: the path the cycle starts to track.  Only
    [current_file] is assigned. *)
Definition begin_cycle (output_dir timestamp : string) (r : recorder)
  : recorder :=
  mkRecorder (Some (path_join output_dir (timestamp ++ ".mkv")%string))
             (last_check_time r) (last_size r)
             (stop_event r) (restart_event r).

Definition see_flags (t : tick) (r : recorder) : recorder :=
  mkRecorder (current_file r) (last_check_time r) (last_size r)
             (stop_event r || t_stop t) (restart_event r || t_restart t).

(** The [while True] of [_single_recording_cycle], lines 129-145. *)
Fixpoint wait_loop (ticks : list tick) (r : recorder)
  : list sup_event * recorder * cycle_end :=
  match ticks with
  | [] => ([], r, Waiting)
  | t :: rest =>
      let r0 := see_flags t r in
      if restart_event r0 then ([TerminateCalled], r0, Broke)
      else
        match t_return_code t with
        | Some code =>
            ([ExitHandled code], snd (_handle_exit_code code r0), Broke)
        | None =>
            if stop_event r0 then ([TerminateCalled], r0, Broke)
            else
              let '(evs, r1, e) := wait_loop rest r0 in
              (Slept :: evs, r1, e)
        end
  end.

(** What one cycle meets: the timestamp of its start, whether the
    directory could be made and the child started, the passes of its wait
    loop, and whether another thread sets a flag while the cycle joins
    the monitor thread after the loop. *)
Record cycle_obs := mkCycle {
  c_timestamp : string;
  c_spawn_ok : bool;
  c_ticks : list tick;
  c_late_restart : bool;
  c_late_stop : bool
}.

Definition late_flags (c : cycle_obs) (r : recorder) : recorder :=
  mkRecorder (current_file r) (last_check_time r) (last_size r)
             (stop_event r || c_late_stop c)
             (restart_event r || c_late_restart c).

(** [FFmpegRecorder._single_recording_cycle] *)
Definition _single_recording_cycle (output_dir : string) (c : cycle_obs)
           (r : recorder) : list sup_event * recorder * cycle_end :=
  let r1 := begin_cycle output_dir (c_timestamp c) r in
  if c_spawn_ok c then
    let '(evs, r2, e) := wait_loop (c_ticks c) r1 in
    (Spawned (path_join output_dir (c_timestamp c ++ ".mkv")%string) :: evs,
     match e with Broke => late_flags c r2 | _ => r2 end, e)
  else ([], r1, Threw).

Inductive outcome :=
| Returned     (* start_recording returned *)
| Running.     (* still recording when the observations end *)

(** [FFmpegRecorder.start_recording] over the successive cycles. *)
Fixpoint start_recording (output_dir : string) (cycles : list cycle_obs)
         (r : recorder) : list sup_event * recorder * outcome :=
  if stop_event r then ([], r, Returned)
  else
    match cycles with
    | [] => ([], r, Running)
    | c :: rest =>
        let '(evs, r1, e) := _single_recording_cycle output_dir c r in
        match e with
        | Waiting => (evs, r1, Running)
        | Threw =>
            let '(evs', r2, o) :=
              start_recording output_dir rest (set_restart r1) in
            (evs ++ CycleFailed :: evs', r2, o)
        | Broke =>
            if restart_event r1 then
              let '(evs', r2, o) :=
                start_recording output_dir rest (clear_restart r1) in
              (evs ++ RestartCleared :: evs', r2, o)
            else (evs, r1, Returned)
        end
    end.

(** [n] passes in which the child runs and no flag is set. *)
Definition quiet (n : nat) : list tick := repeat (mkTick None false false) n.

Definition is_spawn (e : sup_event) : bool :=
  match e with Spawned _ => true | _ => false end.

(** Number of children started. *)
Definition spawns (evs : list sup_event) : nat :=
  List.length (filter is_spawn evs).

End Supervisor.

(** * Properties *)

Import Fs.

(** Boolean comparisons of the embedded code, turned into propositions. *)
Ltac zprop :=
  repeat match goal with
         | H : (_ >? _) = true |- _ =>
             rewrite Z.gtb_ltb in H; apply Z.ltb_lt in H
         | H : (_ >? _) = false |- _ =>
             rewrite Z.gtb_ltb in H; apply Z.ltb_ge in H
         | H : (_ <? _) = true |- _ => apply Z.ltb_lt in H
         | H : (_ <? _) = false |- _ => apply Z.ltb_ge in H
         | H : (_ <=? _) = true |- _ => apply Z.leb_le in H
         | H : (_ <=? _) = false |- _ => apply Z.leb_gt in H
         | H : (_ =? _) = true |- _ => apply Z.eqb_eq in H
         | H : (_ =? _) = false |- _ => apply Z.eqb_neq in H
         end.

(** ** Exit codes *)

Section ExitCodeFacts.
Import ExitCode.

Lemma expected_code_spec (code : Z) :
  expected_code code = true <-> code = 255 \/ code = 137.
Proof.
  unfold expected_code. rewrite orb_true_iff, !Z.eqb_eq. tauto.
Qed.

(** C2. Exit codes 255 and 137 leave the recorder untouched and call
    [restart_event.set()] zero times; every other non-zero code, when no
    stop was requested, sets the restart flag (exactly one call). *)
Theorem exit_code_policy (code : Z) (r : recorder) :
  ((code = 255 \/ code = 137) ->
   restart_requests (fst (_handle_exit_code code r)) = 0%nat /\
   snd (_handle_exit_code code r) = r)
  /\
  (code <> 0 -> code <> 255 -> code <> 137 -> stop_event r = false ->
   restart_requests (fst (_handle_exit_code code r)) = 1%nat /\
   restart_event (snd (_handle_exit_code code r)) = true).
Proof.
  unfold _handle_exit_code. split.
  - intros H. apply expected_code_spec in H. rewrite H. now split.
  - intros _ H255 H137 Hstop.
    destruct (expected_code code) eqn:E.
    + apply expected_code_spec in E. tauto.
    + rewrite Hstop. now split.
Qed.

Lemma exit_code_policy_witness :
  (restart_requests (fst (_handle_exit_code 255 (init_recorder 0))) = 0%nat /\
   snd (_handle_exit_code 255 (init_recorder 0)) = init_recorder 0)
  /\
  (restart_requests (fst (_handle_exit_code 1 (init_recorder 0))) = 1%nat /\
   restart_event (snd (_handle_exit_code 1 (init_recorder 0))) = true).
Proof.
  split.
  - apply (proj1 (exit_code_policy 255 (init_recorder 0))). left. reflexivity.
  - apply (proj2 (exit_code_policy 1 (init_recorder 0)));
      [lia | lia | lia | reflexivity].
Defined.

(** C9. With no stop requested, exit code 0 sets the restart flag, through
    the same branch as any code other than 255 and 137: same log level,
    same request, same resulting recorder. *)
Theorem zero_exit_requests_restart (r : recorder) :
  stop_event r = false ->
  _handle_exit_code 0 r
    = ([Log ERROR; SetRestart ExitCodeSite], set_restart r)
  /\ restart_event (snd (_handle_exit_code 0 r)) = true
  /\ forall code, code <> 255 -> code <> 137 ->
       _handle_exit_code code r = _handle_exit_code 0 r.
Proof.
  intros Hstop. unfold _handle_exit_code. cbn [expected_code].
  change (expected_code 0) with false. cbn iota. rewrite Hstop. cbn.
  repeat split.
  intros code H255 H137.
  destruct (expected_code code) eqn:E; [|reflexivity].
  apply expected_code_spec in E. tauto.
Qed.

Lemma zero_exit_requests_restart_witness :
  _handle_exit_code 0 (init_recorder 0)
    = ([Log ERROR; SetRestart ExitCodeSite], set_restart (init_recorder 0))
  /\ restart_event (snd (_handle_exit_code 0 (init_recorder 0))) = true
  /\ forall code, code <> 255 -> code <> 137 ->
       _handle_exit_code code (init_recorder 0)
       = _handle_exit_code 0 (init_recorder 0).
Proof.
  apply (zero_exit_requests_restart (init_recorder 0)). reflexivity.
Defined.

End ExitCodeFacts.

(** ** Staged shutdown *)

Section ShutdownFacts.
Import Shutdown.

(** A wait with a timeout on a child that has not decided to end raises
    [TimeoutExpired] after exactly the timeout. *)
Lemma wait_times_out (t c : Z) (tr : list (Z * action)) :
  wait (Some t) (mkWorld c None tr)
  = (Raise TimeoutExpired, mkWorld (c + t) None ((c, Wait (Some t)) :: tr)).
Proof. reflexivity. Qed.

(** Whenever the quit command is ignored, the timeout of the first wait
    leaves the [try] block: the interrupt is never sent and the terminate
    signal goes out exactly 15 ticks after the start. *)
Lemma quit_timeout_skips_interrupt (win32 : bool) (b : behaviour) (start : Z) :
  has_stdin b = true -> stdin_broken b = false -> on_quit b = None ->
  sent_at SIGINT (shutdown_trace win32 b start) = [] /\
  sent_at CTRL_C_EVENT (shutdown_trace win32 b start) = [] /\
  sent_at SIGTERM (shutdown_trace win32 b start) = [start + 15].
Proof.
  intros Hin Hbr Hq. unfold shutdown_trace, _terminate_ffmpeg.
  destruct b as [hs br q i t k]; cbn in Hin, Hbr, Hq; subst.
  cbv [bind poll_is_none running try_except stdin_write stdin_flush emit
       stimulate ret raise andb exit_at clock trace has_stdin stdin_broken
       on_quit wait send_signal response on_terminate on_kill snd fst].
  destruct t as [d|]; cbn;
    repeat match goal with
           | |- context [if ?c then _ else _] => destruct c; cbn
           end; auto.
Qed.

(** C1. The child that ignores the quit command and the interrupt and
    honours terminate: the shutdown writes the quit command, waits its 15
    ticks, and on that timeout goes straight to the terminate signal, at
    tick 15 and not at 15 + 5; the interrupt is not sent.  The kill stage
    is not reached and the call returns. *)
Theorem stubborn_child_shutdown :
  shutdown_trace false stubborn 0
    = [(0, StdinWrite); (0, StdinFlush); (0, Wait (Some 15));
       (15, SendSignal SIGTERM); (15, Wait (Some 5))]
  /\ sent_at SIGINT (shutdown_trace false stubborn 0) = []
  /\ sent_at SIGTERM (shutdown_trace false stubborn 0) = [15]
  /\ ~ (Forall (fun t => 15 + 5 <= t)
               (sent_at SIGTERM (shutdown_trace false stubborn 0)))
  /\ sent_at SIGKILL (shutdown_trace false stubborn 0) = []
  /\ shutdown_outcome false stubborn 0 = Return tt.
Proof.
  repeat split; try reflexivity.
  intros H. change (sent_at SIGTERM (shutdown_trace false stubborn 0))
    with [15] in H.
  inversion H; subst. lia.
Qed.

End ShutdownFacts.

(** ** Retention *)

Section CleanupFacts.
Import Cleanup.

Variable lower : string -> string.
Variable fromtimestamp : Z -> option Z.
Variable output_dir : string.
Variable max_files max_size : Z.
Variable can_remove : string -> bool.

Local Abbreviation scan :=
  (scan lower fromtimestamp output_dir can_remove).
Local Abbreviation scan_step :=
  (scan_step lower fromtimestamp output_dir can_remove).
Local Abbreviation candidate_of :=
  (candidate_of lower fromtimestamp output_dir).
Local Abbreviation count_loop := (count_loop max_files can_remove).
Local Abbreviation size_loop := (size_loop max_size can_remove).
Local Abbreviation cycle :=
  (_cleanup_cycle lower fromtimestamp output_dir max_files max_size can_remove).
Local Abbreviation ordered :=
  (ordered_candidates lower fromtimestamp output_dir can_remove).
Local Abbreviation created_before_eq :=
  (created_before_eq lower fromtimestamp output_dir).
Local Abbreviation increasing_on := (increasing_on fromtimestamp).

(** *** The scan *)

Lemma scan_step_files (st : cstate) (e : dirent) :
  files (scan_step st e) = files st ++ candidate_of e.
Proof.
  unfold scan_step, candidate_of.
  destruct (is_mkv lower (d_name e)); cbn; [|now rewrite app_nil_r].
  destruct (d_stat e) as [s|]; cbn; [|now rewrite app_nil_r].
  destruct (st_size s =? 0); cbn.
  - destruct (can_remove _); cbn; now rewrite app_nil_r.
  - destruct (fromtimestamp (st_ctime s)); cbn; [reflexivity|].
    now rewrite app_nil_r.
Qed.

Lemma fold_scan_files (l : list dirent) (st : cstate) :
  files (fold_left scan_step l st)
  = files st ++ flat_map candidate_of l.
Proof.
  revert st. induction l as [|e l IH]; intros st; cbn.
  - now rewrite app_nil_r.
  - rewrite IH, scan_step_files, <- app_assoc. reflexivity.
Qed.

(** The candidates are collected in listing order. *)
Lemma scan_files (l : list dirent) :
  files (scan l) = flat_map candidate_of l.
Proof. unfold Cleanup.scan. now rewrite fold_scan_files. Qed.

Lemma sum_sizes_app (l1 l2 : list candidate) :
  sum_sizes (l1 ++ l2) = sum_sizes l1 + sum_sizes l2.
Proof.
  unfold sum_sizes. induction l1 as [|c l1 IH]; cbn; [reflexivity|].
  rewrite IH. lia.
Qed.

Lemma fold_scan_total (l : list dirent) (st : cstate) :
  total_size st = sum_sizes (files st) ->
  total_size (fold_left scan_step l st)
  = sum_sizes (files (fold_left scan_step l st)).
Proof.
  revert st. induction l as [|e l IH]; intros st H; cbn; [exact H|].
  apply IH. unfold scan_step.
  destruct (is_mkv lower (d_name e)); cbn; [|exact H].
  destruct (d_stat e) as [s|]; cbn; [|exact H].
  destruct (st_size s =? 0); cbn.
  - destruct (can_remove _); exact H.
  - destruct (fromtimestamp (st_ctime s)); cbn; [|exact H].
    rewrite sum_sizes_app, H. cbn. unfold size. cbn. lia.
Qed.

(** After the scan [total_size] is the sum of the candidates' sizes. *)
Lemma scan_total (l : list dirent) :
  total_size (scan l) = sum_sizes (files (scan l)).
Proof. apply fold_scan_total. reflexivity. Qed.

(** The scan evicts nothing: it only deletes empty files. *)
Lemma fold_scan_evicted (l : list dirent) (st : cstate) :
  evicted (log (fold_left scan_step l st))
  = evicted (log st).
Proof.
  assert (E : forall lg ev, evicted (lg ++ [ev]) = evicted lg ++ evicted [ev]).
  { induction lg as [|x lg IH]; intros ev; [reflexivity|].
    cbn [app]. destruct x as [[]| |]; cbn [evicted]; rewrite ?IH; reflexivity. }
  revert st. induction l as [|e l IH]; intros st; cbn; [reflexivity|].
  rewrite IH. unfold scan_step.
  destruct (is_mkv lower (d_name e)); cbn; [|reflexivity].
  destruct (d_stat e) as [s|]; cbn; [|now rewrite E, app_nil_r].
  destruct (st_size s =? 0); cbn.
  - destruct (can_remove _); cbn; now rewrite E, app_nil_r.
  - destruct (fromtimestamp (st_ctime s)); cbn; [reflexivity|].
    now rewrite E, app_nil_r.
Qed.

(** *** The sort *)

Lemma insert_perm (c : candidate) (l : list candidate) :
  Permutation (c :: l) (insert_by_time c l).
Proof.
  induction l as [|d l IH]; cbn; [reflexivity|].
  destruct (file_time c <=? file_time d); [reflexivity|].
  rewrite perm_swap. now constructor.
Qed.

Lemma sort_perm (l : list candidate) : Permutation l (sort_by_time l).
Proof.
  induction l as [|c l IH]; cbn; [constructor|].
  rewrite <- insert_perm. now constructor.
Qed.

Lemma insert_sorted (c : candidate) (l : list candidate) :
  StronglySorted older_eq l -> StronglySorted older_eq (insert_by_time c l).
Proof.
  induction 1 as [|d l HS IH HF]; cbn.
  - constructor; constructor.
  - destruct (file_time c <=? file_time d) eqn:E.
    + apply Z.leb_le in E. constructor; [now constructor|].
      constructor; [exact E|].
      eapply Forall_impl; [|exact HF]. unfold older_eq. intros; lia.
    + apply Z.leb_gt in E. constructor; [exact IH|].
      eapply Permutation_Forall; [apply insert_perm|].
      constructor; [unfold older_eq; lia | exact HF].
Qed.

(** The sorted list is in ascending order of the sort key. *)
Lemma sort_sorted (l : list candidate) :
  StronglySorted older_eq (sort_by_time l).
Proof.
  induction l as [|c l IH]; cbn; [constructor|]. now apply insert_sorted.
Qed.

Lemma insert_stable (t : Z) (c : candidate) (l : list candidate) :
  StronglySorted older_eq l ->
  filter (at_time t) (insert_by_time c l)
  = filter (at_time t) (c :: l).
Proof.
  induction 1 as [|d l HS IH HF]; [reflexivity|].
  cbn [insert_by_time].
  destruct (file_time c <=? file_time d) eqn:E; [reflexivity|].
  apply Z.leb_gt in E. cbn [filter] in *. rewrite IH.
  unfold at_time.
  destruct (file_time d =? t) eqn:Ed, (file_time c =? t) eqn:Ec;
    try reflexivity.
  apply Z.eqb_eq in Ed, Ec. lia.
Qed.

(** Stability: candidates with the same sort key keep the order they had
    before the sort. *)
Lemma sort_stable (t : Z) (l : list candidate) :
  filter (at_time t) (sort_by_time l) = filter (at_time t) l.
Proof.
  induction l as [|c l IH]; [reflexivity|].
  cbn [sort_by_time fold_right].
  rewrite insert_stable by apply sort_sorted.
  cbn [filter]. fold (sort_by_time l). now rewrite IH.
Qed.

Lemma sum_sizes_perm (l1 l2 : list candidate) :
  Permutation l1 l2 -> sum_sizes l1 = sum_sizes l2.
Proof.
  induction 1; cbn; try lia.
  unfold sum_sizes in *. cbn. lia.
Qed.

(** *** The two retention loops *)

Lemma evicted_app (l1 l2 : list cleanup_event) :
  evicted (l1 ++ l2) = evicted l1 ++ evicted l2.
Proof.
  induction l1 as [|x l1 IH]; [reflexivity|].
  cbn [app]. destruct x as [[]| |]; cbn [evicted app]; now rewrite ?IH.
Qed.

Lemma evicted_removed (why : reason) (l : list candidate) :
  why <> EmptyFile ->
  evicted (map (fun c => Removed why (filepath c)) l) = map filepath l.
Proof.
  intros H. induction l as [|c l IH]; [reflexivity|].
  cbn [map]. destruct why; [congruence| |]; cbn [evicted]; now rewrite IH.
Qed.

Lemma deleted_app (l1 l2 : list cleanup_event) :
  deleted (l1 ++ l2) = deleted l1 ++ deleted l2.
Proof.
  induction l1 as [|x l1 IH]; [reflexivity|].
  cbn [app]. destruct x; cbn [deleted app]; now rewrite ?IH.
Qed.

Lemma deleted_removed (why : reason) (l : list candidate) :
  deleted (map (fun c => Removed why (filepath c)) l) = map filepath l.
Proof.
  induction l as [|c l IH]; [reflexivity|]. cbn [map deleted]. now rewrite IH.
Qed.

Lemma attempted_app (l1 l2 : list cleanup_event) :
  attempted (l1 ++ l2) = attempted l1 ++ attempted l2.
Proof.
  induction l1 as [|x l1 IH]; [reflexivity|].
  cbn [app]. destruct x as [[]| |]; cbn [attempted app]; now rewrite ?IH.
Qed.

Lemma sum_firstn_skipn (k : nat) (l : list candidate) :
  sum_sizes l = sum_sizes (firstn k l) + sum_sizes (skipn k l).
Proof. now rewrite <- sum_sizes_app, firstn_skipn. Qed.

(** With every removal succeeding and a non-negative limit, the count loop
    pops exactly the surplus. *)
Lemma count_loop_removable (fl : list candidate) :
  0 <= max_files -> removable can_remove fl ->
  forall total lg,
    let k := Z.to_nat (Z.of_nat (List.length fl) - max_files) in
    count_loop fl total lg
    = Completed
        (mkCstate (skipn k fl) (total - sum_sizes (firstn k fl))
                  (lg ++ map (fun c => Removed CountLimit (filepath c))
                             (firstn k fl))).
Proof.
  intros Hmax. induction fl as [|c rest IH]; intros Hrm total lg k.
  - assert (Hk : k = 0%nat) by (subst k; cbn [List.length]; lia).
    rewrite Hk. cbn. destruct max_files; try lia; cbn;
      now rewrite Z.sub_0_r, app_nil_r.
  - inversion Hrm as [|? ? Hc Hrest]; subst.
    cbn [Cleanup.count_loop].
    destruct (Z.of_nat (List.length (c :: rest)) >? max_files) eqn:E.
    + unfold evict. rewrite Hc. rewrite (IH Hrest).
      assert (Hk : k = S (Z.to_nat (Z.of_nat (List.length rest) - max_files))).
      { subst k. zprop. cbn [List.length] in *. lia. }
      rewrite Hk. cbn [skipn firstn map].
      rewrite <- app_assoc. cbn [app].
      do 2 f_equal. unfold sum_sizes. cbn. lia.
    + assert (Hk : k = 0%nat) by (subst k; zprop; lia).
      rewrite Hk. cbn. now rewrite Z.sub_0_r, app_nil_r.
Qed.

(** With every removal succeeding, the size loop pops the shortest prefix
    that brings the running total within the limit, or everything. *)
Lemma size_loop_removable (fl : list candidate) :
  removable can_remove fl ->
  forall total lg,
  exists k : nat,
    (k <= List.length fl)%nat /\
    size_loop fl total lg
    = mkCstate (skipn k fl) (total - sum_sizes (firstn k fl))
               (lg ++ map (fun c => Removed SizeLimit (filepath c))
                          (firstn k fl)) /\
    (total - sum_sizes (firstn k fl) <= max_size \/ skipn k fl = []) /\
    (forall j, (j < k)%nat -> max_size < total - sum_sizes (firstn j fl)).
Proof.
  induction fl as [|c rest IH]; intros Hrm total lg.
  - exists 0%nat. cbn. rewrite Z.sub_0_r, app_nil_r.
    repeat split; auto. intros; lia.
  - inversion Hrm as [|? ? Hc Hrest]; subst.
    cbn [Cleanup.size_loop].
    destruct (total >? max_size) eqn:E; zprop.
    + unfold evict. rewrite Hc.
      destruct (IH Hrest (total - size c)
                   (lg ++ [Removed SizeLimit (filepath c)]))
        as (k & Hk & Heq & Hstop & Hmin).
      exists (S k). cbn [skipn firstn map List.length].
      assert (Hsum : forall j, total - sum_sizes (c :: firstn j rest)
                               = total - size c - sum_sizes (firstn j rest)).
      { intros j. unfold sum_sizes. cbn. lia. }
      rewrite Hsum, Heq, <- app_assoc. cbn [app].
      repeat split; auto; try lia.
      intros [|j] Hj; cbn [firstn].
      * cbn. lia.
      * rewrite Hsum. apply Hmin. lia.
    + exists 0%nat. cbn. rewrite Z.sub_0_r, app_nil_r.
      repeat split; auto; try lia.
Qed.

(** The shape of a cycle in which every removal succeeds. *)
Lemma cycle_shape (listing : list dirent) :
  0 <= max_files ->
  removable can_remove (files (scan listing)) ->
  exists (k : nat) (st : cstate),
    cycle (Some listing) = Completed st /\
    evicted (log st)
    = map filepath
          (firstn k (ordered listing)) /\
    deleted (log st)
    = deleted (log (scan listing))
      ++ map filepath
           (firstn k (ordered listing)) /\
    files st = skipn k (ordered listing) /\
    (Z.to_nat
       (Z.of_nat
          (List.length (ordered listing))
        - max_files) <= k)%nat /\
    (sum_sizes (files st) <= max_size \/ files st = []) /\
    total_size st = sum_sizes (files st) /\
    (forall j, (j < k)%nat ->
       max_files
       < Z.of_nat (List.length
           (skipn j (ordered listing)))
       \/ max_size
          < sum_sizes
              (skipn j (ordered listing))).
Proof.
  intros Hmax Hrm. unfold ordered_candidates.
  set (cands := files (scan listing)) in *.
  set (ord := sort_by_time cands).
  assert (Hperm : Permutation cands ord) by apply sort_perm.
  assert (Hrm' : removable can_remove ord).
  { unfold removable. eapply Permutation_Forall; eassumption. }
  set (k1 := Z.to_nat (Z.of_nat (List.length ord) - max_files)).
  assert (Hrm1 : removable can_remove (skipn k1 ord)).
  { unfold removable in *. rewrite <- (firstn_skipn k1 ord) in Hrm'.
    apply Forall_app in Hrm'. tauto. }
  assert (Htot : total_size (scan listing) = sum_sizes ord).
  { rewrite scan_total. now apply sum_sizes_perm. }
  destruct (size_loop_removable (skipn k1 ord) Hrm1
              (total_size (scan listing) - sum_sizes (firstn k1 ord))
              (log (scan listing)
               ++ map (fun c => Removed CountLimit (filepath c))
                      (firstn k1 ord)))
    as (k2 & Hk2 & Heq & Hstop & Hmin).
  assert (Hfirst : firstn (k2 + k1) ord
                   = firstn k1 ord ++ firstn k2 (skipn k1 ord)).
  { rewrite <- (firstn_skipn k1 ord) at 1.
    assert (Hlen : (k1 <= List.length ord)%nat) by (subst k1; lia).
    rewrite firstn_app, length_firstn, Nat.min_l by exact Hlen.
    replace (k2 + k1 - k1)%nat with k2 by lia.
    rewrite firstn_firstn, Nat.min_r by lia. reflexivity. }
  assert (Hrest : forall j, sum_sizes ord - sum_sizes (firstn j ord)
                            = sum_sizes (skipn j ord)).
  { intros j. rewrite (sum_firstn_skipn j ord) at 1. lia. }
  exists (k2 + k1)%nat. eexists. split.
  { cbn [Cleanup._cleanup_cycle]. fold cands. fold ord.
    rewrite (count_loop_removable ord Hmax Hrm'). fold k1.
    cbn [files total_size log]. rewrite Heq. reflexivity. }
  cbn [files total_size log].
  rewrite <- skipn_skipn.
  assert (Htotal : total_size (scan listing) - sum_sizes (firstn k1 ord)
                   - sum_sizes (firstn k2 (skipn k1 ord))
                   = sum_sizes (skipn k2 (skipn k1 ord))).
  { rewrite Htot, Hrest.
    rewrite (sum_firstn_skipn k2 (skipn k1 ord)) at 1. lia. }
  repeat split.
  - rewrite !evicted_app, !evicted_removed by discriminate.
    unfold scan, Cleanup.scan. rewrite fold_scan_evicted. cbn [log evicted app].
    now rewrite Hfirst, map_app.
  - rewrite !deleted_app, !deleted_removed, <- app_assoc.
    now rewrite Hfirst, map_app.
  - fold k1. lia.
  - rewrite <- Htotal. exact Hstop.
  - exact Htotal.
  - intros j Hj. destruct (Nat.lt_ge_cases j k1) as [Hlt|Hge].
    + left. rewrite length_skipn. subst k1. lia.
    + right. specialize (Hmin (j - k1)%nat ltac:(lia)).
      rewrite Htot, Hrest in Hmin.
      replace (skipn j ord) with (skipn (j - k1) (skipn k1 ord))
        by (rewrite skipn_skipn; f_equal; lia).
      rewrite (sum_firstn_skipn (j - k1) (skipn k1 ord)) in Hmin. lia.
Qed.

(** *** Auxiliary facts on the loops and the candidates *)

Lemma firstn_then {A : Type} (k1 k2 : nat) (l : list A) :
  firstn k1 l ++ firstn k2 (skipn k1 l)
  = firstn (Nat.min k1 (List.length l) + k2) l.
Proof.
  revert l. induction k1 as [|k1 IH]; intros [|a l]; cbn;
    rewrite ?firstn_nil; try reflexivity.
  f_equal. apply IH.
Qed.

Lemma fold_scan_attempted (l : list dirent) (st : cstate) :
  attempted (log (fold_left scan_step l st))
  = attempted (log st).
Proof.
  revert st. induction l as [|e l IH]; intros st; cbn; [reflexivity|].
  rewrite IH. unfold scan_step.
  destruct (is_mkv lower (d_name e)); cbn; [|reflexivity].
  destruct (d_stat e) as [s|]; cbn; [|now rewrite attempted_app, app_nil_r].
  destruct (st_size s =? 0); cbn.
  - destruct (can_remove _); cbn; now rewrite attempted_app, app_nil_r.
  - destruct (fromtimestamp (st_ctime s)); cbn; [reflexivity|].
    now rewrite attempted_app, app_nil_r.
Qed.

Lemma evict_attempted (why : reason) (c : candidate) (total : Z)
      (lg : list cleanup_event) :
  why <> EmptyFile ->
  attempted (snd (evict can_remove why c total lg))
  = attempted lg ++ [filepath c].
Proof.
  intros H. unfold evict.
  destruct (can_remove (filepath c)); cbn [snd]; rewrite attempted_app;
    destruct why; try congruence; reflexivity.
Qed.

Lemma count_loop_attempted (fl : list candidate) :
  forall total lg, exists k : nat,
    attempted (log (final (count_loop fl total lg)))
    = attempted lg ++ map filepath (firstn k fl) /\
    files (final (count_loop fl total lg)) = skipn k fl.
Proof.
  induction fl as [|c rest IH]; intros total lg.
  - exists 0%nat. cbn. destruct (0 >? max_files); cbn;
      now rewrite app_nil_r.
  - cbn [Cleanup.count_loop].
    destruct (Z.of_nat (List.length (c :: rest)) >? max_files).
    + pose proof (evict_attempted CountLimit c total lg) as He.
      destruct (evict can_remove CountLimit c total lg) as [total' lg'].
      cbn [snd] in He.
      destruct (IH total' lg') as (k & Hk & Hf).
      exists (S k). rewrite Hk, Hf, He by discriminate.
      cbn [firstn skipn map]. now rewrite <- app_assoc.
    + exists 0%nat. cbn. now rewrite app_nil_r.
Qed.

Lemma size_loop_attempted (fl : list candidate) :
  forall total lg, exists k : nat,
    attempted (log (size_loop fl total lg))
    = attempted lg ++ map filepath (firstn k fl).
Proof.
  induction fl as [|c rest IH]; intros total lg.
  - exists 0%nat. cbn. now rewrite app_nil_r.
  - cbn [Cleanup.size_loop]. destruct (total >? max_size).
    + pose proof (evict_attempted SizeLimit c total lg) as He.
      destruct (evict can_remove SizeLimit c total lg) as [total' lg'].
      cbn [snd] in He.
      destruct (IH total' lg') as (k & Hk).
      exists (S k). rewrite Hk, He by discriminate.
      cbn [firstn map]. now rewrite <- app_assoc.
    + exists 0%nat. cbn. now rewrite app_nil_r.
Qed.

Lemma append_inj (d a b : string) :
  (d ++ a)%string = (d ++ b)%string -> a = b.
Proof.
  induction d as [|ch d IH]; cbn; intros H; [exact H|].
  injection H as H. now apply IH.
Qed.

(** Two names of one directory have different paths. *)
Lemma path_join_inj (d a b : string) : path_join d a = path_join d b -> a = b.
Proof.
  unfold path_join. destruct ((d =? "")%string || endswith d "/")%bool.
  - apply append_inj.
  - intros H. apply append_inj in H. cbn in H. now injection H.
Qed.

(** An entry contributes a candidate when its name passes the extension
    test, [os.stat] answers, the file is not empty and its creation time
    converts; the candidate's key is the converted creation time. *)
Lemma candidate_of_in (c : candidate) (e : dirent) :
  In c (candidate_of e) <->
  exists s key, is_mkv lower (d_name e) = true /\ d_stat e = Some s /\
                st_size s <> 0 /\ fromtimestamp (st_ctime s) = Some key /\
                c = (key, path_join output_dir (d_name e), st_size s).
Proof.
  unfold Cleanup.candidate_of. split.
  - destruct (is_mkv lower (d_name e)); [|intros []].
    destruct (d_stat e) as [s|]; [|intros []].
    destruct (st_size s =? 0) eqn:E; [intros []|]. zprop.
    destruct (fromtimestamp (st_ctime s)) as [key|] eqn:Ek; [|intros []].
    intros [H|[]]. exists s, key. auto.
  - intros (s & key & -> & -> & Hs & -> & ->).
    apply Z.eqb_neq in Hs. rewrite Hs. now left.
Qed.

Lemma same_name_same_entry (l : list dirent) (e e' : dirent) :
  NoDup (map d_name l) -> In e l -> In e' l -> d_name e = d_name e' ->
  e = e'.
Proof.
  induction l as [|x l IH]; cbn; [intros _ []|].
  intros Hnd He He' Hn. inversion Hnd as [|? ? Hx Hl]; subst.
  destruct He as [->|He], He' as [->|He']; auto.
  - exfalso. apply Hx. rewrite Hn. now apply in_map.
  - exfalso. apply Hx. rewrite <- Hn. now apply in_map.
Qed.

Lemma candidates_nodup (l : list dirent) :
  NoDup (map d_name l) ->
  NoDup (map filepath (flat_map candidate_of l)).
Proof.
  induction l as [|e l IH]; cbn; [constructor|].
  intros Hnd. inversion Hnd as [|? ? He Hl]; subst.
  rewrite map_app.
  destruct (candidate_of e) as [|c [|c' tl]] eqn:Ec.
  - cbn. auto.
  - cbn. constructor; [|auto].
    assert (Hc : In c (candidate_of e)) by (rewrite Ec; now left).
    apply candidate_of_in in Hc as (s & key & _ & _ & _ & _ & ->).
    intros Hin. apply in_map_iff in Hin as (c2 & Hp & Hin).
    apply in_flat_map in Hin as (e2 & He2 & Hc2).
    apply candidate_of_in in Hc2 as (s2 & key2 & _ & _ & _ & _ & ->).
    cbn in Hp. apply path_join_inj in Hp.
    apply He. rewrite <- Hp. now apply in_map.
  - exfalso. unfold Cleanup.candidate_of in Ec.
    destruct (is_mkv lower (d_name e)); [|discriminate].
    destruct (d_stat e) as [s|]; [|discriminate].
    destruct (st_size s =? 0); [discriminate|].
    destruct (fromtimestamp (st_ctime s)); discriminate.
Qed.

(** What the scan deletes are empty files only. *)
Lemma fold_scan_deleted (p : string) (l : list dirent) (st : cstate) :
  In p (deleted (log (fold_left scan_step l st))) ->
  In p (deleted (log st)) \/
  exists e s, In e l /\ d_stat e = Some s /\ st_size s = 0 /\
              p = path_join output_dir (d_name e).
Proof.
  revert st. induction l as [|e l IH]; intros st; cbn; [now left|].
  intros H. apply IH in H as [H|(e' & s & He' & Hs)].
  - unfold scan_step in H.
    destruct (is_mkv lower (d_name e)); [|now left].
    destruct (d_stat e) as [s|] eqn:Es; cbn in H.
    + destruct (st_size s =? 0) eqn:E; zprop.
      * destruct (can_remove _); cbn in H; rewrite deleted_app in H;
          apply in_app_or in H as [H|H]; auto.
        -- destruct H as [<-|[]]. right. exists e, s. auto.
        -- destruct H.
      * destruct (fromtimestamp (st_ctime s)); cbn in H; [now left|].
        rewrite deleted_app in H. apply in_app_or in H as [H|[]]. now left.
    + rewrite deleted_app in H. apply in_app_or in H as [H|[]]. now left.
  - right. exists e', s. tauto.
Qed.

Lemma sorted_last {A : Type} (R : A -> A -> Prop) (l : list A) (x : A) :
  StronglySorted R (l ++ [x]) -> forall y, In y l -> R y x.
Proof.
  induction l as [|a l IH]; cbn; [intros _ y []|].
  intros H y [->|Hy].
  - apply StronglySorted_inv in H as [_ H].
    rewrite Forall_forall in H. apply H. apply in_or_app. right. now left.
  - apply StronglySorted_inv in H as [H _]. now apply IH.
Qed.

(** The sorted list holds exactly the candidates of the listing. *)
Lemma ordered_perm (listing : list dirent) :
  Permutation (flat_map candidate_of listing) (ordered listing).
Proof. unfold ordered_candidates. rewrite scan_files. apply sort_perm. Qed.

(** What the candidates are, in terms of the directory listing alone. *)
Lemma ordered_in (listing : list dirent) (c : candidate) :
  In c (ordered listing) <->
  exists e s key,
    In e listing /\ is_mkv lower (d_name e) = true /\ d_stat e = Some s /\
    st_size s <> 0 /\ fromtimestamp (st_ctime s) = Some key /\
    c = (key, path_join output_dir (d_name e), st_size s).
Proof.
  split.
  - intros H. eapply Permutation_in in H; [|symmetry; apply ordered_perm].
    apply in_flat_map in H as (e & He & Hc).
    apply candidate_of_in in Hc as (s & key & Hc). exists e, s, key. tauto.
  - intros (e & s & key & He & H).
    eapply Permutation_in; [apply ordered_perm|].
    apply in_flat_map. exists e. split; [exact He|].
    apply candidate_of_in. exists s, key. exact H.
Qed.

(** When every removal of a non-empty listed segment succeeds, so does
    every removal the two loops can attempt. *)
Lemma segments_removable (listing : list dirent) :
  (forall e s, In e listing -> is_mkv lower (d_name e) = true ->
               d_stat e = Some s -> st_size s <> 0 ->
               can_remove (path_join output_dir (d_name e)) = true) ->
  removable can_remove (files (scan listing)).
Proof.
  intros H. rewrite scan_files. apply Forall_forall. intros c Hc.
  apply in_flat_map in Hc as (e & He & Hc).
  apply candidate_of_in in Hc as (s & key & Hm & Hs & Hz & _ & ->).
  cbn. eapply H; eassumption.
Qed.

Lemma sorted_impl {A : Type} (R R' : A -> A -> Prop) (l : list A) :
  StronglySorted R l ->
  (forall x y, In x l -> In y l -> R x y -> R' x y) ->
  StronglySorted R' l.
Proof.
  induction 1 as [|a l HS IH HF]; intros Himp; constructor.
  - apply IH. intros x y Hx Hy. apply Himp; now right.
  - rewrite Forall_forall in *. intros y Hy.
    apply Himp; [now left | now right | now apply HF].
Qed.

(** Where the conversion is strictly increasing on the creation times of
    the listing, the order of the sort keys is the order of the creation
    times. *)
Lemma ordered_by_creation (listing : list dirent) :
  increasing_on listing ->
  StronglySorted (created_before_eq listing) (ordered listing).
Proof.
  intros Hinc.
  apply (sorted_impl older_eq); [apply sort_sorted|].
  intros x y Hx Hy Hxy.
  apply ordered_in in Hx as (ex & sx & kx & Hex & Hmx & Hsx & Hzx & Hkx & ->).
  apply ordered_in in Hy as (ey & sy & ky & Hey & Hmy & Hsy & Hzy & Hky & ->).
  exists (st_ctime sx), (st_ctime sy).
  split; [|split].
  - exists ex, sx. repeat split; auto.
    apply candidate_of_in. exists sx, kx. auto.
  - exists ey, sy. repeat split; auto.
    apply candidate_of_in. exists sy, ky. auto.
  - destruct (Z.le_gt_cases (st_ctime sx) (st_ctime sy)) as [H|H];
      [exact H|].
    pose proof (Hinc ey sy ky ex sx kx Hey Hsy Hky Hex Hsx Hkx H) as Hk.
    unfold older_eq, file_time in Hxy. cbn in Hxy. lia.
Qed.

(** *** The eviction order, whether or not removals succeed *)


(** *** When the newest file survives *)

(** C4, as the code has it. The cycle never reads the recorder.  The
    tracked file is spared when it is a listed non-empty segment whose
    sort key, the converted creation time, is strictly later than the key
    of every other listed non-empty segment, the listing names no file
    twice, at least one file may be kept, the file alone fits in
    [max_size], and every removal of a non-empty listed segment
    succeeds. *)
Theorem newest_current_file_survives
        (r : recorder) (listing : list dirent) (e : dirent) (s : file_stat)
        (key : Z) :
  current_file r = Some (path_join output_dir (d_name e)) ->
  NoDup (map d_name listing) ->
  In e listing -> is_mkv lower (d_name e) = true -> d_stat e = Some s ->
  st_size s <> 0 ->
  fromtimestamp (st_ctime s) = Some key ->
  (forall e' s' key',
     In e' listing -> d_name e' <> d_name e ->
     is_mkv lower (d_name e') = true -> d_stat e' = Some s' ->
     st_size s' <> 0 ->
     fromtimestamp (st_ctime s') = Some key' -> key' < key) ->
  1 <= max_files -> st_size s <= max_size ->
  (forall e' s', In e' listing -> is_mkv lower (d_name e') = true ->
                 d_stat e' = Some s' -> st_size s' <> 0 ->
                 can_remove (path_join output_dir (d_name e')) = true) ->
  forall cur, current_file r = Some cur ->
    ~ In cur (deleted (log (final (cycle (Some listing))))).
Proof.
  intros Hr Hnd He Hmkv Hstat Hsize Hkey Hnew Hmf Hms Hrm cur Hcur.
  rewrite Hr in Hcur. injection Hcur as <-.
  apply segments_removable in Hrm.
  destruct (cycle_shape listing ltac:(lia) Hrm)
    as (k & st & Hc & _ & Hdel & _ & _ & _ & _ & Hmin).
  pose proof (sort_sorted (files (scan listing))) as Hsorted.
  pose proof (ordered_perm listing) as Hperm.
  fold (ordered listing) in Hsorted.
  rewrite Hc. cbn [final]. rewrite Hdel. intros Hin.
  apply in_app_or in Hin as [Hin|Hin].
  - (* an empty file of the same name *)
    unfold Cleanup.scan in Hin.
    apply fold_scan_deleted in Hin as [[]|(e0 & s0 & He0 & Hs0 & Hz & Hp)].
    apply path_join_inj in Hp.
    assert (e = e0) by (eapply same_name_same_entry; eauto). subst e0.
    congruence.
  - (* an evicted candidate *)
    set (ord := ordered listing) in *.
    set (cc := (key, path_join output_dir (d_name e), st_size s)).
    assert (Hcc : In cc ord).
    { apply ordered_in. exists e, s, key. auto 6. }
    assert (Hne : ord <> []) by (intros E; rewrite E in Hcc; destruct Hcc).
    destruct (exists_last Hne) as (front & x & Hord).
    assert (Hx : x = cc).
    { assert (Hxin : In x ord).
      { rewrite Hord. apply in_or_app. right. now left. }
      apply ordered_in in Hxin
        as (ex & sx & kx & Hex & Hmx & Hsx & Hzx & Hkx & ->).
      destruct (string_dec (d_name ex) (d_name e)) as [En|En].
      - assert (ex = e) by (eapply same_name_same_entry; eauto). subst ex.
        rewrite Hstat in Hsx. injection Hsx as <-.
        rewrite Hkey in Hkx. now injection Hkx as <-.
      - exfalso. specialize (Hnew ex sx kx Hex En Hmx Hsx Hzx Hkx).
        rewrite Hord in Hcc. apply in_app_or in Hcc as [Hcc|[Hcc|[]]].
        + rewrite Hord in Hsorted.
          apply (sorted_last _ _ _ Hsorted) in Hcc.
          unfold older_eq, file_time in Hcc. cbn in Hcc. lia.
        + unfold cc in Hcc. injection Hcc as Ht _ _. lia. }
    subst x.
    assert (Hpaths : NoDup (map filepath ord)).
    { eapply Permutation_NoDup; [apply Permutation_map; exact Hperm|].
      now apply candidates_nodup. }
    rewrite Hord, map_app in Hpaths. cbn in Hpaths.
    apply NoDup_remove_2 in Hpaths. rewrite app_nil_r in Hpaths.
    assert (Hk : (k <= List.length front)%nat).
    { destruct (Nat.le_gt_cases k (List.length front)) as [H|H]; [exact H|].
      exfalso. specialize (Hmin (List.length front) H).
      rewrite Hord, skipn_app, skipn_all, Nat.sub_diag in Hmin.
      cbn in Hmin. unfold size in Hmin. cbn in Hmin. lia. }
    apply Hpaths. rewrite Hord, firstn_app in Hin.
    replace (k - List.length front)%nat with 0%nat in Hin by lia.
    cbn [firstn] in Hin. rewrite app_nil_r in Hin.
    apply in_map_iff in Hin as (c & Hp & Hcin).
    apply in_map_iff. exists c. split; [exact Hp|].
    rewrite <- (firstn_skipn k front). apply in_or_app. now left.
Qed.

(** *** The limits *)


End CleanupFacts.


Section CleanupExamples.
Import Cleanup Watch.



(** C4 fails: the file the recorder tracks is the newest and is not
    empty, and the cycle removes it to get under [max_size]; a tracked
    file that is still empty is removed as an empty file. *)
Lemma retention_deletes_current_file :
  (current_file (tracking "rec/live.mkv" 2 100) = Some "rec/live.mkv" /\
   In "rec/live.mkv"
      (deleted (log (final (_cleanup_cycle ascii_lower utc "rec" 256 50
                                           always (Some live_listing))))))
  /\
  (current_file (tracking "rec/fresh.mkv" 2 0) = Some "rec/fresh.mkv" /\
   In "rec/fresh.mkv"
      (deleted (log (final (_cleanup_cycle ascii_lower utc "rec" 256 50
                                           always (Some fresh_listing)))))).
Proof.
  repeat split.
  - cbn. right. now left.
  - cbn. now left.
Qed.

Lemma newest_current_file_survives_witness :
  deleted (log (final (_cleanup_cycle ascii_lower utc "rec" 2 120 always
                                      (Some busy_listing))))
  = ["rec/old.mkv"; "rec/mid.mkv"]
  /\ ~ In "rec/live.mkv"
          (deleted (log (final (_cleanup_cycle ascii_lower utc "rec" 2 120
                                               always (Some busy_listing))))).
Proof.
  split; [reflexivity|].
  apply (newest_current_file_survives ascii_lower utc "rec" 2 120 always
           (tracking "rec/live.mkv" 3 100) busy_listing
           (plain_file "live.mkv" 3 100) (mkStat 100 3 3) 3).
  - reflexivity.
  - cbn. constructor; [intros [H|[H|[]]]; discriminate|].
    constructor; [intros [H|[]]; discriminate|].
    constructor; [intros []|constructor].
  - right. right. now left.
  - reflexivity.
  - reflexivity.
  - cbn. lia.
  - reflexivity.
  - intros e' s' key' [<-|[<-|[<-|[]]]] Hn _ Hs _ Hk; cbn in *.
    + injection Hs as <-. cbn in Hk. injection Hk as <-. lia.
    + injection Hs as <-. cbn in Hk. injection Hk as <-. lia.
    + congruence.
  - lia.
  - cbn. lia.
  - reflexivity.
  - reflexivity.
Defined.


End CleanupExamples.

(** ** The watchdog *)

Section WatchFacts.
Import Watch.

Variable lower : string -> string.
Variable cfg : config.
Variable start_time : Z.

Local Abbreviation body := (monitor_body lower cfg start_time).
Local Abbreviation loop := (monitor_loop lower cfg start_time).

Lemma restart_requests_app (t1 t2 : list event) :
  restart_requests (t1 ++ t2)
  = (restart_requests t1 + restart_requests t2)%nat.
Proof. unfold restart_requests. now rewrite filter_app, length_app. Qed.

(** Unfolds one iteration and splits on everything it tests. *)
Ltac body_cases :=
  unfold monitor_body, other_file, not_found_handler, truthy;
  repeat match goal with
         | |- context [match ?x with _ => _ end] =>
             lazymatch x with
             | context [match _ with _ => _ end] => fail
             | _ => destruct x eqn:?
             end
         end;
  cbn [s_rec s_events s_control].

(** *** The local flag [file_created] *)

(** While [file_created] is false no iteration raises the restart of the
    [FileNotFoundError] handler. *)
Lemma body_never_vanished (o : observation) (r : recorder) :
  ~ In (SetRestart VanishedSite) (s_events (body false o r)).
Proof.
  body_cases; cbn; intuition discriminate.
Qed.

(** The loop hands [file_created] on unchanged. *)
Lemma loop_keeps_file_created (fc : bool) (obs : list observation) :
  forall r, r_created (loop fc obs r) = fc.
Proof.
  induction obs as [|o rest IH]; intros r; cbn [monitor_loop].
  - destruct (stop_event r || restart_event r)%bool; reflexivity.
  - destruct (stop_event r || restart_event r)%bool; [reflexivity|].
    destruct (s_control (body fc o r)); cbn [r_created]; auto.
Qed.

(** With the flag set the handler does raise the restart: the branch is
    there, only the flag never is. *)
Lemma handler_restarts_when_flag_set (r : recorder) :
  In (SetRestart VanishedSite)
     (s_events (not_found_handler cfg true r [])).
Proof. cbn. auto. Qed.

(** C10. In every run of [_monitor_process], whatever the environment
    answers, [file_created] is false at the end and the restart of the
    [FileNotFoundError] handler is never raised. *)
Theorem vanished_restart_unreachable (obs : list observation) (r : recorder) :
  r_created (_monitor_process lower cfg start_time obs r) = false /\
  ~ In (SetRestart VanishedSite)
       (r_trace (_monitor_process lower cfg start_time obs r)).
Proof.
  unfold _monitor_process. split; [apply loop_keeps_file_created|].
  revert r. induction obs as [|o rest IH]; intros r; cbn [monitor_loop].
  - destruct (stop_event r || restart_event r)%bool; cbn; tauto.
  - destruct (stop_event r || restart_event r)%bool; [cbn; tauto|].
    pose proof (body_never_vanished o r) as Hb.
    destruct (s_control (body false o r)); cbn [r_trace]; [|exact Hb].
    intros Hin. apply in_app_or in Hin as [Hin|Hin]; [now apply Hb|].
    now apply IH in Hin.
Qed.

(** *** A stalled file *)

Lemma truthy_tracked (r : recorder) (target : string) :
  current_file r = Some target -> target <> "" ->
  truthy (current_file r) = Some target.
Proof.
  intros -> Hne. cbn. destruct (String.eqb_spec target ""); congruence.
Qed.

(** When the scan finds nothing, or finds the tracked file itself, the
    watchdog has no file to switch to. *)
Lemma scan_without_other_file (target : string) (o : observation) :
  find_latest_mkv lower (output_dir cfg) (o_listing o) = None \/
  find_latest_mkv lower (output_dir cfg) (o_listing o) = Some target ->
  other_file lower cfg target o = None.
Proof.
  unfold other_file. intros [-> | ->]; cbn [truthy]; [reflexivity|].
  destruct (target =? "")%string; [reflexivity|].
  now rewrite String.eqb_refl.
Qed.

(** Once the restart flag is set and no other thread clears it, the loop
    test fails. *)
Lemma loop_exits_on_restart (fc : bool) (obs : list observation)
      (r : recorder) :
  restart_event r = true -> loop fc obs r = mkRun r fc [] Exited.
Proof.
  intros H. destruct obs; cbn [monitor_loop]; rewrite H, orb_true_r;
    reflexivity.
Qed.

(** C7, as the code has it. The tracked file is there, its size is the
    last observed size, and the directory scan [find_latest_mkv] finds
    nothing or the tracked file itself.  If more than the stall timeout
    has passed since the last progress, this iteration calls
    [restart_event.set()] exactly once and sleeps; unless
    [start_recording] clears the flag during that sleep, the loop then
    ends, so no further poll takes place whatever would be observed next.
    If the stall is still within the timeout, the iteration raises
    nothing and leaves the recorder as it is. *)
Theorem stall_raises_one_restart
        (o : observation) (rest : list observation) (r : recorder)
        (target : string) :
  current_file r = Some target -> target <> "" ->
  stop_event r = false -> restart_event r = false ->
  o_exists o = true -> o_size o = Some (last_size r) ->
  (find_latest_mkv lower (output_dir cfg) (o_listing o) = None \/
   find_latest_mkv lower (output_dir cfg) (o_listing o) = Some target) ->
  (timeout cfg < o_now o - last_check_time r ->
   s_events (body false o r)
   = [Log ERROR; SetRestart StallSite; Sleep (monitor_interval cfg)] /\
   restart_requests (s_events (body false o r)) = 1%nat /\
   s_rec (body false o r) = set_restart r /\
   (o_clear o = false ->
    r_trace (_monitor_process lower cfg start_time (o :: rest) r)
    = [Log ERROR; SetRestart StallSite; Sleep (monitor_interval cfg)] /\
    r_status (_monitor_process lower cfg start_time (o :: rest) r) = Exited /\
    restart_event
      (r_rec (_monitor_process lower cfg start_time (o :: rest) r)) = true))
  /\
  (o_now o - last_check_time r <= timeout cfg ->
   restart_requests (s_events (body false o r)) = 0%nat /\
   s_rec (body false o r) = r).
Proof.
  intros Hcur Hne Hstop Hres Hex Hsz Hscan.
  pose proof (truthy_tracked r target Hcur Hne) as Htruthy.
  pose proof (scan_without_other_file target o Hscan) as Hother.
  assert (Hbody : body false o r
                  = if o_now o - last_check_time r >? timeout cfg
                    then mkStep (set_restart r)
                                [Log ERROR; SetRestart StallSite;
                                 Sleep (monitor_interval cfg)] Continue
                    else mkStep r [Sleep (monitor_interval cfg)] Continue).
  { unfold monitor_body. rewrite Htruthy, Hex, Hsz. cbn [negb].
    rewrite Z.gtb_ltb, Z.ltb_irrefl, Hother. reflexivity. }
  split; intros Ht.
  - assert (E : (o_now o - last_check_time r >? timeout cfg) = true)
      by (rewrite Z.gtb_ltb; now apply Z.ltb_lt).
    rewrite E in Hbody. rewrite Hbody. cbn [s_events s_rec].
    split; [reflexivity|]. split; [reflexivity|]. split; [reflexivity|].
    intros Hclear. unfold _monitor_process. cbn [monitor_loop].
    rewrite Hstop, Hres, Hbody. cbn [orb s_control s_events s_rec].
    assert (Hflag : restart_event (observe_flags o (set_restart r)) = true)
      by (cbn; now rewrite Hclear).
    rewrite (loop_exits_on_restart false rest _ Hflag).
    cbn [r_trace r_status r_rec]. rewrite app_nil_r. auto.
  - assert (E : (o_now o - last_check_time r >? timeout cfg) = false)
      by (rewrite Z.gtb_ltb; now apply Z.ltb_ge).
    rewrite E in Hbody. rewrite Hbody. cbn. auto.
Qed.

(** *** Steady growth *)

(** X31. From a recorder whose last observed size and last progress time
    start the run, a run of polls of the tracked file that shows steady
    growth (sizes never decrease; whenever the size is unchanged, no more
    than the stall timeout has passed since the last increase and there is
    no other file to switch to) makes the watchdog call
    [restart_event.set()] zero times, whatever other threads do to the
    flags; the thread does not crash and the tracked file stays the
    same. *)
Theorem steady_growth_never_restarts
        (obs : list observation) (r : recorder) (target : string) :
  current_file r = Some target -> target <> "" ->
  steady lower cfg target (last_check_time r) (last_size r) obs ->
  restart_requests (r_trace (_monitor_process lower cfg start_time obs r))
  = 0%nat
  /\ r_status (_monitor_process lower cfg start_time obs r) <> Crashed
  /\ current_file (r_rec (_monitor_process lower cfg start_time obs r))
     = Some target.
Proof.
  unfold _monitor_process. intros Hcur Hne. revert r Hcur.
  induction obs as [|o rest IH]; intros r Hcur Hst; cbn [monitor_loop].
  - destruct (stop_event r || restart_event r)%bool; cbn;
      repeat split; auto; discriminate.
  - destruct (stop_event r || restart_event r)%bool;
      [cbn; repeat split; auto; discriminate|].
    cbn [steady] in Hst. destruct Hst as (Hex & Hst).
    destruct (o_size o) as [sz|] eqn:Hsz; [|destruct Hst].
    destruct Hst as (Hle & Hst).
    unfold monitor_body.
    rewrite (truthy_tracked r target Hcur Hne), Hex, Hsz. cbn [negb].
    rewrite Z.gtb_ltb.
    destruct (last_size r <? sz) eqn:Hgrow.
    + (* the file has grown *)
      cbn [s_control s_events s_rec].
      destruct (IH (observe_flags o (progress r sz (o_now o))))
        as (H1 & H2 & H3); [exact Hcur | exact Hst |].
      cbn [r_trace r_status r_rec]. rewrite restart_requests_app, H1.
      auto.
    + (* same size, within the timeout *)
      destruct Hst as (Hother & Htime & Hst). rewrite Hother.
      assert (E : (o_now o - last_check_time r >? timeout cfg) = false)
        by (rewrite Z.gtb_ltb; now apply Z.ltb_ge).
      rewrite E. cbn [s_control s_events s_rec].
      destruct (IH (observe_flags o r)) as (H1 & H2 & H3);
        [exact Hcur | exact Hst |].
      cbn [r_trace r_status r_rec]. rewrite restart_requests_app, H1.
      auto.
Qed.

(** *** Which file the watchdog adopts *)

(** The scan returns the first listed segment among those with the
    greatest modification time, when that time is above the start value. *)
Lemma latest_loop_spec (names : list dirent) :
  forall (latest_file : option string) (latest_mtime : Z),
    (latest_loop lower (output_dir cfg) names latest_file latest_mtime
     = latest_file /\
     forall e s, In e names -> is_mkv lower (d_name e) = true ->
                 d_stat e = Some s -> st_mtime s <= latest_mtime)
    \/
    (exists e s,
        In e names /\ is_mkv lower (d_name e) = true /\ d_stat e = Some s /\
        latest_loop lower (output_dir cfg) names latest_file latest_mtime
        = Some (path_join (output_dir cfg) (d_name e)) /\
        latest_mtime < st_mtime s /\
        forall e' s', In e' names -> is_mkv lower (d_name e') = true ->
                      d_stat e' = Some s' -> st_mtime s' <= st_mtime s).
Proof.
  induction names as [|x names IH]; intros lf lm; cbn [latest_loop].
  { left. split; [reflexivity|]. intros e s []. }
  assert (Hskip :
    (is_mkv lower (d_name x) = true ->
     forall sx, d_stat x = Some sx -> st_mtime sx <= lm) ->
    (latest_loop lower (output_dir cfg) names lf lm = lf /\
     forall e s, In e (x :: names) -> is_mkv lower (d_name e) = true ->
                 d_stat e = Some s -> st_mtime s <= lm)
    \/
    (exists e s,
        In e (x :: names) /\ is_mkv lower (d_name e) = true /\
        d_stat e = Some s /\
        latest_loop lower (output_dir cfg) names lf lm
        = Some (path_join (output_dir cfg) (d_name e)) /\
        lm < st_mtime s /\
        forall e' s', In e' (x :: names) -> is_mkv lower (d_name e') = true ->
                      d_stat e' = Some s' -> st_mtime s' <= st_mtime s)).
  { intros Hx.
    destruct (IH lf lm) as [[Heq Hall]|(e & s & He & H1 & H2 & H3 & H4 & H5)].
    - left. split; [exact Heq|].
      intros e s [<-|He] Hmk Hs; [now apply Hx | now apply (Hall e s)].
    - right. exists e, s.
      split; [now right|]. split; [exact H1|]. split; [exact H2|].
      split; [exact H3|]. split; [exact H4|].
      intros e' s' [<-|He'] Hmk Hs; [|now apply (H5 e' s')].
      specialize (Hx Hmk s' Hs). lia. }
  destruct (is_mkv lower (d_name x)) eqn:Hm;
    [|apply Hskip; intros; discriminate].
  destruct (d_stat x) as [sx|] eqn:Hsx;
    [|apply Hskip; intros; discriminate].
  destruct (st_mtime sx >? lm) eqn:Hgt; zprop.
  - right.
    destruct (IH (Some (path_join (output_dir cfg) (d_name x)))
                 (st_mtime sx))
      as [[Heq Hall]|(e & s & He & H1 & H2 & H3 & H4 & H5)].
    + exists x, sx.
      split; [now left|]. split; [exact Hm|]. split; [exact Hsx|].
      split; [exact Heq|]. split; [exact Hgt|].
      intros e' s' [<-|He'] Hmk Hs; [|now apply (Hall e' s')].
      rewrite Hsx in Hs. injection Hs as <-. lia.
    + exists e, s.
      split; [now right|]. split; [exact H1|]. split; [exact H2|].
      split; [exact H3|]. split; [lia|].
      intros e' s' [<-|He'] Hmk Hs; [|now apply (H5 e' s')].
      rewrite Hsx in Hs. injection Hs as <-. lia.
  - apply Hskip. intros _ sx' Hsx'. injection Hsx' as <-. exact Hgt.
Qed.

(** What [find_latest_mkv] returns is a listed segment whose modification
    time is not below that of any listed segment. *)
Lemma find_latest_mkv_spec (listing : option (list dirent)) (f : string) :
  find_latest_mkv lower (output_dir cfg) listing = Some f ->
  exists names e s,
    listing = Some names /\ In e names /\ is_mkv lower (d_name e) = true /\
    d_stat e = Some s /\ f = path_join (output_dir cfg) (d_name e) /\
    forall e' s', In e' names -> is_mkv lower (d_name e') = true ->
                  d_stat e' = Some s' -> st_mtime s' <= st_mtime s.
Proof.
  destruct listing as [names|]; cbn; [|discriminate].
  intros H.
  destruct (latest_loop_spec names None 0) as [[Heq _]|(e & s & He & Hr)].
  - congruence.
  - destruct Hr as (H1 & H2 & H3 & H4 & H5). rewrite H3 in H.
    injection H as <-. exists names, e, s. auto 10.
Qed.

(** When the tracked file is listed and every other listed segment was
    modified strictly earlier, the scan returns the tracked file and the
    watchdog sees no file to switch to. *)
Lemma newest_listed_is_latest (names : list dirent) (e : dirent)
      (s : file_stat) :
  In e names -> is_mkv lower (d_name e) = true -> d_stat e = Some s ->
  0 < st_mtime s ->
  (forall e' s', In e' names -> d_name e' <> d_name e ->
                 is_mkv lower (d_name e') = true -> d_stat e' = Some s' ->
                 st_mtime s' < st_mtime s) ->
  find_latest_mkv lower (output_dir cfg) (Some names)
  = Some (path_join (output_dir cfg) (d_name e)).
Proof.
  intros He Hm Hs Hpos Hnew. cbn [find_latest_mkv].
  destruct (latest_loop_spec names None 0)
    as [[_ Hall]|(e2 & s2 & He2 & Hm2 & Hs2 & Hr & _ & Hmax)].
  - specialize (Hall e s He Hm Hs). lia.
  - rewrite Hr. destruct (string_dec (d_name e2) (d_name e)) as [->|Hn];
      [reflexivity|].
    specialize (Hnew e2 s2 He2 Hn Hm2 Hs2).
    specialize (Hmax e s He Hm Hs). lia.
Qed.

Lemma no_newer_file_no_switch (o : observation) (names : list dirent)
      (e : dirent) (s : file_stat) :
  o_listing o = Some names ->
  In e names -> is_mkv lower (d_name e) = true -> d_stat e = Some s ->
  0 < st_mtime s ->
  (forall e' s', In e' names -> d_name e' <> d_name e ->
                 is_mkv lower (d_name e') = true -> d_stat e' = Some s' ->
                 st_mtime s' < st_mtime s) ->
  other_file lower cfg (path_join (output_dir cfg) (d_name e)) o = None.
Proof.
  intros Hl He Hm Hs Hpos Hnew. unfold other_file.
  rewrite Hl, (newest_listed_is_latest names e s He Hm Hs Hpos Hnew).
  unfold truthy.
  destruct (path_join (output_dir cfg) (d_name e) =? "")%string;
    [reflexivity|].
  now rewrite String.eqb_refl.
Qed.

(** An iteration that changes the tracked file adopts the scan's result. *)
Lemma body_adopts_latest (fc : bool) (o : observation) (r : recorder) :
  current_file (s_rec (body fc o r)) <> current_file r ->
  exists f, find_latest_mkv lower (output_dir cfg) (o_listing o) = Some f /\
            current_file (s_rec (body fc o r)) = Some f.
Proof.
  body_cases; cbn; intros H; try congruence; eauto.
Qed.

(** C5, as the code has it. Creation times play no part.  The event
    handler adopts the normalised path of a closed segment whenever it is
    not the path it reported last.  An iteration of the watchdog that
    changes the tracked file adopts a listed segment whose modification
    time is not below that of any listed segment. *)
Theorem tracked_file_updates
        (normpath : string -> string) (now : Z) (ev : fs_event)
        (last_file : option string) (fc : bool) (o : observation)
        (r : recorder) :
  (is_directory ev = false -> is_mkv lower (src_path ev) = true ->
   last_file <> Some (normpath (src_path ev)) ->
   on_closed lower normpath now ev last_file r
   = (Some (normpath (src_path ev)),
      mkRecorder (Some (normpath (src_path ev))) now (last_size r)
                 (stop_event r) (restart_event r)))
  /\
  (current_file (s_rec (body fc o r)) <> current_file r ->
   exists names e s,
     o_listing o = Some names /\ In e names /\
     is_mkv lower (d_name e) = true /\ d_stat e = Some s /\
     current_file (s_rec (body fc o r))
     = Some (path_join (output_dir cfg) (d_name e)) /\
     forall e' s', In e' names -> is_mkv lower (d_name e') = true ->
                   d_stat e' = Some s' -> st_mtime s' <= st_mtime s).
Proof.
  split.
  - intros Hd Hm Hl. unfold on_closed. rewrite Hd, Hm. cbn.
    destruct last_file as [l|]; [|reflexivity].
    destruct (String.eqb_spec (normpath (src_path ev)) l); [|reflexivity].
    congruence.
  - intros H. apply body_adopts_latest in H as (f & Hf & Hc).
    apply find_latest_mkv_spec in Hf
      as (names & e & s & H1 & H2 & H3 & H4 & H5 & H6).
    exists names, e, s. rewrite Hc, H5. auto 10.
Qed.

End WatchFacts.

Section WatchExamples.
Import Watch.

(** C5 fails on both paths: with [b] tracked, created at 2, the close
    notification of [a], created at 1, makes [a] the tracked file; and a
    poll that finds [b] unchanged switches to [a], which was written
    last. *)
Lemma tracked_file_regresses :
  ctime_in "rec" two_segments "rec/b.mkv" = Some 2 /\
  ctime_in "rec" two_segments "rec/a.mkv" = Some 1 /\
  current_file (tracking "rec/b.mkv" 5 100) = Some "rec/b.mkv" /\
  current_file
    (snd (on_closed ascii_lower (fun p => p) 7 (mkEvent false "rec/a.mkv") None
                    (tracking "rec/b.mkv" 5 100)))
  = Some "rec/a.mkv" /\
  current_file
    (s_rec (monitor_body ascii_lower default_config 0 false
                         (poll 7 100 two_segments)
                         (tracking "rec/b.mkv" 5 100)))
  = Some "rec/a.mkv".
Proof. repeat split. Qed.

Lemma tracked_file_updates_witness :
  on_closed ascii_lower (fun p => p) 7 (mkEvent false "rec/a.mkv") None
            (tracking "rec/b.mkv" 5 100)
  = (Some "rec/a.mkv", mkRecorder (Some "rec/a.mkv") 7 100 false false)
  /\
  exists names e s,
    Some two_segments = Some names /\ In e names /\
    is_mkv ascii_lower (d_name e) = true /\ d_stat e = Some s /\
    current_file
      (s_rec (monitor_body ascii_lower default_config 0 false
                           (poll 7 100 two_segments)
                           (tracking "rec/b.mkv" 5 100)))
    = Some (path_join "rec" (d_name e)) /\
    forall e' s', In e' names -> is_mkv ascii_lower (d_name e') = true ->
                  d_stat e' = Some s' -> st_mtime s' <= st_mtime s.
Proof.
  split.
  - apply (proj1 (tracked_file_updates ascii_lower default_config 0
                    (fun p => p) 7
                    (mkEvent false "rec/a.mkv") None false
                    (poll 7 100 two_segments)
                    (tracking "rec/b.mkv" 5 100))).
    + reflexivity.
    + reflexivity.
    + discriminate.
  - apply (proj2 (tracked_file_updates ascii_lower default_config 0
                    (fun p => p) 7
                    (mkEvent false "rec/a.mkv") None false
                    (poll 7 100 two_segments)
                    (tracking "rec/b.mkv" 5 100))).
    cbn. discriminate.
Defined.

Lemma steady_growth_never_restarts_witness :
  restart_requests
    (r_trace (_monitor_process ascii_lower default_config 0
                [poll 1 10 two_segments; poll 5 10 []; poll 40 25 []]
                (tracking "rec/b.mkv" 0 0))) = 0%nat
  /\ r_status (_monitor_process ascii_lower default_config 0
                 [poll 1 10 two_segments; poll 5 10 []; poll 40 25 []]
                 (tracking "rec/b.mkv" 0 0)) <> Crashed
  /\ current_file
       (r_rec (_monitor_process ascii_lower default_config 0
                 [poll 1 10 two_segments; poll 5 10 []; poll 40 25 []]
                 (tracking "rec/b.mkv" 0 0)))
     = Some "rec/b.mkv".
Proof.
  apply (steady_growth_never_restarts ascii_lower default_config 0
           [poll 1 10 two_segments; poll 5 10 []; poll 40 25 []]
           (tracking "rec/b.mkv" 0 0) "rec/b.mkv").
  - reflexivity.
  - discriminate.
  - cbn. repeat split; lia.
Defined.

(** C6 fails in the code.  A cycle starts on a new file while the recorder
    still holds the size and the progress time of the file before it
    ([begin_cycle] assigns the path only).  The new file grows at every
    poll, six ticks apart with a stall timeout of ten, but stays below the
    old size: no poll counts as progress, and the second poll raises the
    stall restart.  From a recorder reset for the new file, as the
    watchdog's own adoption of a file does, the same polls raise
    nothing. *)
Theorem stale_size_restarts_growing_file :
  Supervisor.begin_cycle "rec" "seg2" (tracking "rec/seg1.mkv" 0 1000)
  = tracking "rec/seg2.mkv" 0 1000
  /\ r_trace
       (_monitor_process ascii_lower brisk_config 1
          [growing "seg2.mkv" 6 20; growing "seg2.mkv" 12 40;
           growing "seg2.mkv" 18 60]
          (tracking "rec/seg2.mkv" 0 1000))
     = [Sleep 5; Log ERROR; SetRestart StallSite; Sleep 5]
  /\ restart_requests
       (r_trace
          (_monitor_process ascii_lower brisk_config 1
             [growing "seg2.mkv" 6 20; growing "seg2.mkv" 12 40;
              growing "seg2.mkv" 18 60]
             (tracking "rec/seg2.mkv" 0 1000))) = 1%nat
  /\ restart_requests
       (r_trace
          (_monitor_process ascii_lower brisk_config 1
             [growing "seg2.mkv" 6 20; growing "seg2.mkv" 12 40;
              growing "seg2.mkv" 18 60]
             (tracking "rec/seg2.mkv" 1 0))) = 0%nat.
Proof. repeat split. Qed.

(** C7 fails: the tracked file [b] has kept its size for longer than the
    stall timeout and no listed file is newer, by modification or by
    creation time; but [a], written at the same instant, is listed first,
    so the scan reports it and the watchdog switches to it instead of
    raising a restart. *)
Lemma stalled_file_switch_on_equal_mtime :
  current_file (tracking "rec/b.mkv" 0 100) = Some "rec/b.mkv"
  /\ In (mkDirent "b.mkv" (Some (mkStat 100 5 5))) tied_segments
  /\ o_exists (poll 90 100 tied_segments) = true
  /\ o_size (poll 90 100 tied_segments)
     = Some (last_size (tracking "rec/b.mkv" 0 100))
  /\ (forall e s, In e tied_segments -> d_stat e = Some s ->
                  st_mtime s <= 5 /\ st_ctime s <= 5)
  /\ timeout default_config
     < o_now (poll 90 100 tied_segments)
       - last_check_time (tracking "rec/b.mkv" 0 100)
  /\ find_latest_mkv ascii_lower "rec" (Some tied_segments)
     = Some "rec/a.mkv"
  /\ s_events (monitor_body ascii_lower default_config 0 false
                            (poll 90 100 tied_segments)
                            (tracking "rec/b.mkv" 0 100))
     = [Log INFO]
  /\ restart_requests
       (s_events (monitor_body ascii_lower default_config 0 false
                               (poll 90 100 tied_segments)
                               (tracking "rec/b.mkv" 0 100))) = 0%nat
  /\ current_file
       (s_rec (monitor_body ascii_lower default_config 0 false
                            (poll 90 100 tied_segments)
                            (tracking "rec/b.mkv" 0 100)))
     = Some "rec/a.mkv".
Proof.
  split; [reflexivity|]. split; [right; now left|].
  split; [reflexivity|]. split; [reflexivity|].
  split.
  { intros e s [<-|[<-|[]]] Hs; injection Hs as <-; cbn; lia. }
  split; [now vm_compute|]. repeat split.
Qed.

Lemma stall_raises_one_restart_witness :
  (s_events (monitor_body ascii_lower default_config 0 false
                          (poll 40 100 two_segments)
                          (tracking "rec/a.mkv" 5 100))
   = [Log ERROR; SetRestart StallSite; Sleep 30] /\
   restart_requests
     (s_events (monitor_body ascii_lower default_config 0 false
                             (poll 40 100 two_segments)
                             (tracking "rec/a.mkv" 5 100))) = 1%nat /\
   s_rec (monitor_body ascii_lower default_config 0 false
                       (poll 40 100 two_segments)
                       (tracking "rec/a.mkv" 5 100))
   = set_restart (tracking "rec/a.mkv" 5 100) /\
   r_trace (_monitor_process ascii_lower default_config 0
              [poll 40 100 two_segments; poll 70 100 two_segments]
              (tracking "rec/a.mkv" 5 100))
   = [Log ERROR; SetRestart StallSite; Sleep 30] /\
   r_status (_monitor_process ascii_lower default_config 0
               [poll 40 100 two_segments; poll 70 100 two_segments]
               (tracking "rec/a.mkv" 5 100)) = Exited /\
   restart_event
     (r_rec (_monitor_process ascii_lower default_config 0
               [poll 40 100 two_segments; poll 70 100 two_segments]
               (tracking "rec/a.mkv" 5 100))) = true)
  /\
  (restart_requests
     (s_events (monitor_body ascii_lower default_config 0 false
                             (poll 12 100 two_segments)
                             (tracking "rec/a.mkv" 5 100))) = 0%nat /\
   s_rec (monitor_body ascii_lower default_config 0 false
                       (poll 12 100 two_segments)
                       (tracking "rec/a.mkv" 5 100))
   = tracking "rec/a.mkv" 5 100).
Proof.
  split.
  - destruct (proj1 (stall_raises_one_restart ascii_lower default_config 0
                       (poll 40 100 two_segments)
                       [poll 70 100 two_segments]
                       (tracking "rec/a.mkv" 5 100) "rec/a.mkv"
                       eq_refl ltac:(discriminate) eq_refl eq_refl eq_refl
                       eq_refl (or_intror eq_refl)))
      as (H1 & H2 & H3 & H4).
    + now vm_compute.
    + split; [exact H1|]. split; [exact H2|]. split; [exact H3|].
      apply H4. reflexivity.
  - apply (proj2 (stall_raises_one_restart ascii_lower default_config 0
                    (poll 12 100 two_segments) []
                    (tracking "rec/a.mkv" 5 100) "rec/a.mkv"
                    eq_refl ltac:(discriminate) eq_refl eq_refl eq_refl
                    eq_refl (or_intror eq_refl))).
    now vm_compute.
Defined.

End WatchExamples.

(** ** More on the staged shutdown *)

Section ShutdownMore.
Import Shutdown.

(** Runs the shutdown symbolically and splits on every test it makes. *)
Ltac run_shutdown :=
  cbv [shutdown_trace shutdown_outcome _terminate_ffmpeg
       bind poll_is_none running try_except stdin_write stdin_flush emit
       stimulate ret raise andb exit_at clock trace has_stdin stdin_broken
       on_quit on_interrupt on_terminate on_kill wait send_signal response
       snd fst];
  repeat match goal with
         | |- context [if ?c then _ else _] =>
             lazymatch c with
             | context [if _ then _ else _] => fail
             | context [match _ with _ => _ end] => fail
             | _ => destruct c eqn:?
             end
         | |- context [match ?x with _ => _ end] =>
             lazymatch x with
             | context [if _ then _ else _] => fail
             | context [match _ with _ => _ end] => fail
             | _ => destruct x eqn:?
             end
         end.

(** On a child that has ended, or with no child, the shutdown does
    nothing. *)
Lemma shutdown_skips_ended_child (win32 hp : bool) (b : behaviour)
      (w : world) :
  hp = false \/ running w = false ->
  _terminate_ffmpeg win32 hp b w = (Return tt, w).
Proof.
  intros H. unfold _terminate_ffmpeg, bind, poll_is_none.
  destruct H as [-> | ->]; [reflexivity|]. now rewrite andb_false_r.
Qed.

(** X1. Unless writing to its stdin fails, the shutdown of a running child
    always returns; the child has ended by then; it has taken at most 20
    ticks plus the time the child needs to die of a kill; and a second
    shutdown right after it takes no action at all. *)
Theorem shutdown_reaps_child (win32 : bool) (b : behaviour) (start : Z) :
  stdin_broken b = false ->
  fst (_terminate_ffmpeg win32 true b (mkWorld start None [])) = Return tt /\
  running (snd (_terminate_ffmpeg win32 true b (mkWorld start None [])))
  = false /\
  start <= clock (snd (_terminate_ffmpeg win32 true b (mkWorld start None [])))
        <= start + 20 + Z.max 0 (on_kill b) /\
  forall win32' hp b',
    _terminate_ffmpeg win32' hp b'
      (snd (_terminate_ffmpeg win32 true b (mkWorld start None [])))
    = (Return tt,
       snd (_terminate_ffmpeg win32 true b (mkWorld start None []))).
Proof.
  intros Hbr.
  assert (H : fst (_terminate_ffmpeg win32 true b (mkWorld start None []))
              = Return tt /\
              running (snd (_terminate_ffmpeg win32 true b
                                              (mkWorld start None [])))
              = false /\
              start <= clock (snd (_terminate_ffmpeg win32 true b
                                                     (mkWorld start None [])))
                    <= start + 20 + Z.max 0 (on_kill b)).
  { destruct b as [hs br q i t k]; cbn in Hbr; subst.
    run_shutdown.
    all: cbn.
    all: zprop.
    all: repeat split; try reflexivity; lia. }
  destruct H as (H1 & H2 & H3). repeat split; try assumption; try lia.
  intros win32' hp b'. apply shutdown_skips_ended_child. now right.
Qed.

Lemma shutdown_reaps_child_witness :
  fst (_terminate_ffmpeg false true stubborn (mkWorld 0 None [])) = Return tt /\
  running (snd (_terminate_ffmpeg false true stubborn (mkWorld 0 None [])))
  = false /\
  0 <= clock (snd (_terminate_ffmpeg false true stubborn (mkWorld 0 None [])))
    <= 0 + 20 + Z.max 0 (on_kill stubborn) /\
  forall win32' hp b',
    _terminate_ffmpeg win32' hp b'
      (snd (_terminate_ffmpeg false true stubborn (mkWorld 0 None [])))
    = (Return tt,
       snd (_terminate_ffmpeg false true stubborn (mkWorld 0 None []))).
Proof. apply (shutdown_reaps_child false stubborn 0). reflexivity. Defined.

(** X2. On a broken pipe the quit command is written into the buffer and
    the flush raises; the error is logged and that is all: no wait, no
    signal, and the child is left running. *)
Theorem broken_stdin_leaves_child_running (win32 : bool) (b : behaviour)
      (start : Z) :
  has_stdin b = true -> stdin_broken b = true ->
  shutdown_trace win32 b start
  = [(start, StdinWrite); (start, StdinFlush); (start, LogFailure)] /\
  shutdown_outcome win32 b start = Return tt /\
  running (snd (_terminate_ffmpeg win32 true b (mkWorld start None []))) = true.
Proof.
  intros Hs Hbr. destruct b as [hs br q i t k]; cbn in Hs, Hbr; subst.
  repeat split.
Qed.




(** X5. Without a stdin pipe the interrupt stage does run: an interrupt that
    is ignored is followed by the terminate signal after the 5 ticks of
    its wait. *)
Theorem interrupt_stage_without_stdin (win32 : bool) (b : behaviour)
      (start : Z) :
  has_stdin b = false -> on_interrupt b = None ->
  sent_at (if win32 then CTRL_C_EVENT else SIGINT)
          (shutdown_trace win32 b start) = [start] /\
  sent_at SIGTERM (shutdown_trace win32 b start) = [start + 5].
Proof.
  intros Hs Hi. destruct b as [hs br q i t k]; cbn in Hs, Hi; subst.
  destruct win32; run_shutdown; cbn; auto.
Qed.

Lemma interrupt_stage_without_stdin_witness :
  sent_at SIGINT
    (shutdown_trace false (mkBehaviour false false None None (Some 1) 0) 0)
  = [0] /\
  sent_at SIGTERM
    (shutdown_trace false (mkBehaviour false false None None (Some 1) 0) 0)
  = [0 + 5].
Proof.
  apply (interrupt_stage_without_stdin false
           (mkBehaviour false false None None (Some 1) 0) 0);
    reflexivity.
Defined.

End ShutdownMore.

(** ** More on retention *)

Section CleanupMore.
Import Cleanup After.

Variable lower : string -> string.
Variable fromtimestamp : Z -> option Z.
Variable output_dir : string.
Variable max_files max_size : Z.
Variable can_remove : string -> bool.

Local Abbreviation scan :=
  (scan lower fromtimestamp output_dir can_remove).
Local Abbreviation scan_step :=
  (scan_step lower fromtimestamp output_dir can_remove).
Local Abbreviation candidate_of :=
  (candidate_of lower fromtimestamp output_dir).
Local Abbreviation count_loop := (count_loop max_files can_remove).
Local Abbreviation size_loop := (size_loop max_size can_remove).
Local Abbreviation cycle :=
  (_cleanup_cycle lower fromtimestamp output_dir max_files max_size can_remove).
Local Abbreviation ordered :=
  (ordered_candidates lower fromtimestamp output_dir can_remove).

(** *** What a cycle deletes *)

Lemma evict_deleted (why : reason) (c : candidate) (total : Z)
      (lg : list cleanup_event) (p : string) :
  In p (deleted (snd (evict can_remove why c total lg))) ->
  In p (deleted lg) \/ (p = filepath c /\ can_remove p = true).
Proof.
  unfold evict. destruct (can_remove (filepath c)) eqn:E; cbn [snd];
    rewrite deleted_app; intros H; apply in_app_or in H as [H|H]; auto.
  - destruct H as [<-|[]]. auto.
  - destruct H.
Qed.

Lemma evict_log_grows (why : reason) (c : candidate) (total : Z)
      (lg : list cleanup_event) :
  exists ev, snd (evict can_remove why c total lg) = lg ++ [ev].
Proof.
  unfold evict. destruct (can_remove (filepath c)); cbn [snd]; eauto.
Qed.

Lemma count_loop_deleted (fl : list candidate) (p : string) :
  forall total lg,
    In p (deleted (log (final (count_loop fl total lg)))) ->
    In p (deleted lg) \/ (In p (map filepath fl) /\ can_remove p = true).
Proof.
  induction fl as [|c rest IH]; intros total lg; cbn [Cleanup.count_loop].
  - destruct (Z.of_nat (List.length (@nil candidate)) >? max_files); cbn; auto.
  - destruct (Z.of_nat (List.length (c :: rest)) >? max_files);
      [|cbn; auto].
    pose proof (evict_deleted CountLimit c total lg p) as He.
    destruct (evict can_remove CountLimit c total lg) as [total' lg'].
    cbn [snd] in He. intros H. apply IH in H as [H|[H1 H2]].
    + apply He in H as [H|[-> H]]; auto. right. split; [now left|exact H].
    + right. split; [now right|exact H2].
Qed.

Lemma size_loop_deleted (fl : list candidate) (p : string) :
  forall total lg,
    In p (deleted (log (size_loop fl total lg))) ->
    In p (deleted lg) \/ (In p (map filepath fl) /\ can_remove p = true).
Proof.
  induction fl as [|c rest IH]; intros total lg; cbn [Cleanup.size_loop].
  - cbn; auto.
  - destruct (total >? max_size); [|cbn; auto].
    pose proof (evict_deleted SizeLimit c total lg p) as He.
    destruct (evict can_remove SizeLimit c total lg) as [total' lg'].
    cbn [snd] in He. intros H. apply IH in H as [H|[H1 H2]].
    + apply He in H as [H|[-> H]]; auto. right. split; [now left|exact H].
    + right. split; [now right|exact H2].
Qed.

Lemma count_loop_log_grows (fl : list candidate) :
  forall total lg,
  exists lg', log (final (count_loop fl total lg)) = lg ++ lg'.
Proof.
  induction fl as [|c rest IH]; intros total lg; cbn [Cleanup.count_loop].
  - exists []. destruct (Z.of_nat (List.length (@nil candidate)) >? max_files);
      cbn; now rewrite app_nil_r.
  - destruct (Z.of_nat (List.length (c :: rest)) >? max_files);
      [|exists []; cbn; now rewrite app_nil_r].
    destruct (evict_log_grows CountLimit c total lg) as (ev & He).
    destruct (evict can_remove CountLimit c total lg) as [total' lg'].
    cbn [snd] in He. subst lg'.
    destruct (IH total' (lg ++ [ev])) as (lg2 & H2).
    exists (ev :: lg2). rewrite H2, <- app_assoc. reflexivity.
Qed.

Lemma size_loop_log_grows (fl : list candidate) :
  forall total lg,
  exists lg', log (size_loop fl total lg) = lg ++ lg'.
Proof.
  induction fl as [|c rest IH]; intros total lg; cbn [Cleanup.size_loop].
  - exists []. cbn. now rewrite app_nil_r.
  - destruct (total >? max_size);
      [|exists []; cbn; now rewrite app_nil_r].
    destruct (evict_log_grows SizeLimit c total lg) as (ev & He).
    destruct (evict can_remove SizeLimit c total lg) as [total' lg'].
    cbn [snd] in He. subst lg'.
    destruct (IH total' (lg ++ [ev])) as (lg2 & H2).
    exists (ev :: lg2). rewrite H2, <- app_assoc. reflexivity.
Qed.

(** The log of the scan is a prefix of the log of the whole cycle. *)
Lemma cycle_log_extends_scan (listing : list dirent) :
  exists lg',
    log (final (cycle (Some listing))) = log (scan listing) ++ lg'.
Proof.
  cbn [Cleanup._cleanup_cycle].
  destruct (count_loop_log_grows
              (sort_by_time (files (scan listing)))
              (total_size (scan listing)) (log (scan listing))) as (l1 & H1).
  destruct (count_loop (sort_by_time (files (scan listing)))
                       (total_size (scan listing)) (log (scan listing)))
    as [st|e st]; cbn [final] in *.
  - destruct (size_loop_log_grows (files st) (total_size st) (log st))
      as (l2 & H2).
    exists (l1 ++ l2). now rewrite H2, H1, app_assoc.
  - eauto.
Qed.

Lemma fold_scan_removes_empty (l : list dirent) (e : dirent) (s : file_stat) :
  In e l -> is_mkv lower (d_name e) = true -> d_stat e = Some s ->
  st_size s = 0 -> can_remove (path_join output_dir (d_name e)) = true ->
  forall st,
    In (path_join output_dir (d_name e))
       (deleted (log (fold_left scan_step l st))).
Proof.
  intros He Hm Hs Hz Hr.
  assert (Hmono : forall l0 st0 p,
             In p (deleted (log st0)) ->
             In p (deleted
                     (log (fold_left scan_step l0 st0)))).
  { induction l0 as [|x l0 IH]; intros st0 p Hp; cbn; [exact Hp|].
    apply IH. unfold scan_step.
    destruct (is_mkv lower (d_name x)); cbn; [|exact Hp].
    destruct (d_stat x) as [sx|]; cbn;
      [|rewrite deleted_app; apply in_or_app; now left].
    destruct (st_size sx =? 0); cbn.
    - destruct (can_remove (path_join output_dir (d_name x))); cbn [log];
        rewrite deleted_app; apply in_or_app; now left.
    - destruct (fromtimestamp (st_ctime sx)); cbn [log]; [exact Hp|].
      rewrite deleted_app; apply in_or_app; now left. }
  induction l as [|x l IH]; [destruct He|]. intros st. cbn [fold_left].
  destruct He as [->|He]; [|now apply IH].
  apply Hmono. unfold scan_step. rewrite Hm, Hs. cbn [negb].
  rewrite Hz. cbn. rewrite Hr. cbn. rewrite deleted_app.
  apply in_or_app. right. now left.
Qed.

(** X6. Every listed segment of size zero that can be removed is removed,
    whatever the limits and whether or not any other removal fails. *)
Theorem empty_segments_always_deleted
        (listing : list dirent) (e : dirent) (s : file_stat) :
  In e listing -> is_mkv lower (d_name e) = true -> d_stat e = Some s ->
  st_size s = 0 -> can_remove (path_join output_dir (d_name e)) = true ->
  In (path_join output_dir (d_name e))
     (deleted (log (final (cycle (Some listing))))) /\
  ~ In (path_join output_dir (d_name e))
       (map filepath (candidate_of e)).
Proof.
  intros He Hm Hs Hz Hr. split.
  - destruct (cycle_log_extends_scan listing) as (lg' & ->).
    rewrite deleted_app. apply in_or_app. left.
    unfold Cleanup.scan. eapply fold_scan_removes_empty; eauto.
  - unfold Cleanup.candidate_of. rewrite Hm, Hs, Hz. cbn. tauto.
Qed.

Lemma fold_scan_deleted_segment (p : string) (l : list dirent) (st : cstate) :
  In p (deleted (log (fold_left scan_step l st))) ->
  In p (deleted (log st)) \/
  exists e s, In e l /\ is_mkv lower (d_name e) = true /\ d_stat e = Some s /\
              st_size s = 0 /\ p = path_join output_dir (d_name e) /\
              can_remove p = true.
Proof.
  revert st. induction l as [|e l IH]; intros st; cbn; [now left|].
  intros H. apply IH in H as [H|(e' & s & He' & Hs)].
  - unfold scan_step in H.
    destruct (is_mkv lower (d_name e)) eqn:Em; [|now left].
    destruct (d_stat e) as [s|] eqn:Es; cbn in H.
    + destruct (st_size s =? 0) eqn:E; zprop.
      * destruct (can_remove (path_join output_dir (d_name e))) eqn:Er;
          cbn in H; rewrite deleted_app in H;
          apply in_app_or in H as [H|H]; auto.
        -- destruct H as [<-|[]]. right. exists e, s. auto 10.
        -- destruct H.
      * destruct (fromtimestamp (st_ctime s)); cbn in H; [now left|].
        rewrite deleted_app in H. apply in_app_or in H as [H|[]]. now left.
    + rewrite deleted_app in H. apply in_app_or in H as [H|[]]. now left.
  - right. exists e', s. tauto.
Qed.

(** X7. A cycle deletes nothing but listed segments whose removal succeeds:
    never a file without the extension, never a path that is not in the
    listing. *)
Theorem only_listed_segments_deleted (listing : list dirent) (p : string) :
  In p (deleted (log (final (cycle (Some listing))))) ->
  exists e s, In e listing /\ is_mkv lower (d_name e) = true /\
              d_stat e = Some s /\
              p = path_join output_dir (d_name e) /\
              can_remove p = true.
Proof.
  cbn [Cleanup._cleanup_cycle]. intros H.
  assert (Hin : In p (deleted (log (scan listing))) \/
                (In p (map filepath (sort_by_time (files (scan listing))))
                 /\ can_remove p = true)).
  { pose proof (count_loop_deleted
                  (sort_by_time (files (scan listing))) p
                  (total_size (scan listing)) (log (scan listing))) as Hc.
    pose proof (count_loop_attempted max_files can_remove
                  (sort_by_time (files (scan listing)))
                  (total_size (scan listing)) (log (scan listing)))
      as (k & _ & Hf).
    destruct (count_loop (sort_by_time (files (scan listing)))
                         (total_size (scan listing)) (log (scan listing)))
      as [st|e st]; cbn [final] in *; [|auto].
    apply size_loop_deleted in H as [H|[H1 H2]]; [auto|].
    right. split; [|exact H2]. rewrite Hf in H1.
    apply in_map_iff in H1 as (c & Hp & Hc1). apply in_map_iff.
    exists c. split; [exact Hp|].
    rewrite <- (firstn_skipn k (sort_by_time (files (scan listing)))).
    apply in_or_app. now right. }
  destruct Hin as [Hin|[Hin Hr]].
  - unfold Cleanup.scan in Hin.
    apply fold_scan_deleted_segment in Hin
      as [[]|(e & s & He & Hm & Hs & _ & Hp & Hr)].
    exists e, s. auto.
  - apply in_map_iff in Hin as (c & Hp & Hc).
    apply (Permutation_in _ (Permutation_sym (sort_perm _))) in Hc.
    rewrite scan_files in Hc. apply in_flat_map in Hc as (e & He & Hc).
    apply candidate_of_in in Hc as (s & key & Hm & Hs & _ & _ & ->).
    exists e, s. cbn in Hp. subst p. auto.
Qed.

(** *** The limits *)

Lemma sort_length (l : list candidate) :
  List.length (sort_by_time l) = List.length l.
Proof. symmetry. apply Permutation_length, sort_perm. Qed.

Lemma count_loop_within (fl : list candidate) (total : Z)
      (lg : list cleanup_event) :
  Z.of_nat (List.length fl) <= max_files ->
  count_loop fl total lg = Completed (mkCstate fl total lg).
Proof.
  intros H. destruct fl as [|c rest]; cbn [Cleanup.count_loop];
    destruct (Z.of_nat (List.length _) >? max_files) eqn:E; zprop;
    try reflexivity; lia.
Qed.

Lemma size_loop_within (fl : list candidate) (total : Z)
      (lg : list cleanup_event) :
  total <= max_size \/ fl = [] ->
  size_loop fl total lg = mkCstate fl total lg.
Proof.
  intros [H| ->]; [|reflexivity].
  destruct fl as [|c rest]; cbn [Cleanup.size_loop]; [reflexivity|].
  destruct (total >? max_size) eqn:E; zprop; [lia|reflexivity].
Qed.

(** X8. When the candidates are within both limits, or there is none, the
    cycle removes no candidate and attempts none: it leaves the sorted
    candidates, their total size and the log of the scan. *)
Theorem within_limits_nothing_evicted (listing : list dirent) :
  Z.of_nat (List.length (files (scan listing))) <= max_files ->
  sum_sizes (files (scan listing)) <= max_size \/ files (scan listing) = [] ->
  cycle (Some listing)
  = Completed (mkCstate (ordered listing)
                        (sum_sizes (files (scan listing)))
                        (log (scan listing))).
Proof.
  intros Hc Hs. cbn [Cleanup._cleanup_cycle].
  rewrite count_loop_within by (now rewrite sort_length).
  cbn [files total_size log]. rewrite size_loop_within.
  - now rewrite scan_total.
  - rewrite scan_total. destruct Hs as [Hs|Hs]; [now left|right].
    now rewrite Hs.
Qed.

Lemma count_loop_completes (fl : list candidate) :
  0 <= max_files ->
  forall total lg, exists st,
    count_loop fl total lg = Completed st /\
    Z.of_nat (List.length (files st)) <= max_files.
Proof.
  intros Hmax. induction fl as [|c rest IH]; intros total lg;
    cbn [Cleanup.count_loop].
  - destruct (Z.of_nat (List.length (@nil candidate)) >? max_files) eqn:E;
      zprop; cbn in E; [lia|]. eexists. split; [reflexivity|]. cbn. lia.
  - destruct (Z.of_nat (List.length (c :: rest)) >? max_files) eqn:E; zprop.
    + destruct (evict can_remove CountLimit c total lg) as [total' lg'].
      apply IH.
    + eexists. split; [reflexivity|]. exact E.
Qed.

Lemma size_loop_bounds (fl : list candidate) :
  forall total lg,
    (List.length (files (size_loop fl total lg)) <= List.length fl)%nat /\
    (total_size (size_loop fl total lg) <= max_size \/
     files (size_loop fl total lg) = []).
Proof.
  induction fl as [|c rest IH]; intros total lg; cbn [Cleanup.size_loop].
  - cbn. auto.
  - destruct (total >? max_size) eqn:E; zprop.
    + destruct (evict can_remove SizeLimit c total lg) as [total' lg'].
      destruct (IH total' lg') as [H1 H2]. split; [cbn; lia|exact H2].
    + cbn. split; [lia|now left].
Qed.

(** X9. With a non-negative file limit the cycle always completes, whichever
    removals fail; the candidates it keeps are within the file limit, and
    its running total is within the size limit unless no candidate is
    kept. *)
Theorem cycle_completes_within_count (listing : list dirent) :
  0 <= max_files ->
  exists st,
    cycle (Some listing) = Completed st /\
    Z.of_nat (List.length (files st)) <= max_files /\
    (total_size st <= max_size \/ files st = []).
Proof.
  intros Hmax. cbn [Cleanup._cleanup_cycle].
  destruct (count_loop_completes (sort_by_time (files (scan listing))) Hmax
              (total_size (scan listing)) (log (scan listing)))
    as (st & -> & Hlen).
  destruct (size_loop_bounds (files st) (total_size st) (log st)) as [H1 H2].
  eexists. split; [reflexivity|]. split; [lia|exact H2].
Qed.

Lemma count_loop_negative (fl : list candidate) :
  max_files < 0 ->
  forall total lg, exists st,
    count_loop fl total lg = Raised IndexError st /\
    files st = [] /\
    attempted (log st) = attempted lg ++ map filepath fl.
Proof.
  intros Hmax. induction fl as [|c rest IH]; intros total lg;
    cbn [Cleanup.count_loop].
  - destruct (Z.of_nat (List.length (@nil candidate)) >? max_files) eqn:E;
      zprop; cbn in E; [|lia].
    eexists. split; [reflexivity|]. cbn. now rewrite app_nil_r.
  - destruct (Z.of_nat (List.length (c :: rest)) >? max_files) eqn:E; zprop;
      [|lia].
    pose proof (evict_attempted can_remove CountLimit c total lg
                                ltac:(discriminate)) as He.
    destruct (evict can_remove CountLimit c total lg) as [total' lg'].
    cbn [snd] in He.
    destruct (IH total' lg') as (st & Hst & Hf & Ha).
    exists st. split; [exact Hst|]. split; [exact Hf|].
    rewrite Ha, He, <- app_assoc. reflexivity.
Qed.

(** X10. With a negative file limit the count loop pops every candidate,
    oldest first, trying to remove each, and then pops the empty list:
    the cycle ends in [IndexError] with no candidate left. *)
Theorem negative_file_limit_raises (listing : list dirent) :
  max_files < 0 ->
  exists st,
    cycle (Some listing) = Raised IndexError st /\
    files st = [] /\
    attempted (log st) = map filepath (ordered listing).
Proof.
  intros Hmax. cbn [Cleanup._cleanup_cycle].
  destruct (count_loop_negative (sort_by_time (files (scan listing))) Hmax
              (total_size (scan listing)) (log (scan listing)))
    as (st & -> & Hf & Ha).
  exists st. split; [reflexivity|]. split; [exact Hf|].
  rewrite Ha. unfold Cleanup.scan. now rewrite fold_scan_attempted.
Qed.

(** *** Removals that fail *)

Lemma count_loop_unremovable (fl : list candidate) :
  0 <= max_files -> unremovable can_remove fl ->
  forall total lg,
    count_loop fl total lg
    = Completed
        (mkCstate
           (skipn (Z.to_nat (Z.of_nat (List.length fl) - max_files)) fl)
           total
           (lg ++ map (fun c => RemoveFailed (filepath c))
                      (firstn (Z.to_nat (Z.of_nat (List.length fl)
                                         - max_files)) fl))).
Proof.
  intros Hmax. induction fl as [|c rest IH]; intros Hun total lg.
  - cbn. destruct max_files; try lia; cbn; now rewrite app_nil_r.
  - inversion Hun as [|? ? Hc Hrest]; subst.
    cbn [Cleanup.count_loop].
    destruct (Z.of_nat (List.length (c :: rest)) >? max_files) eqn:E; zprop.
    + unfold evict. rewrite Hc, (IH Hrest).
      replace (Z.to_nat (Z.of_nat (List.length (c :: rest)) - max_files))
        with (S (Z.to_nat (Z.of_nat (List.length rest) - max_files)))
        by (cbn [List.length] in *; lia).
      cbn [skipn firstn map]. now rewrite <- app_assoc.
    + replace (Z.to_nat (Z.of_nat (List.length (c :: rest)) - max_files))
        with 0%nat by lia.
      cbn. now rewrite app_nil_r.
Qed.

Lemma size_loop_unremovable (fl : list candidate) :
  unremovable can_remove fl ->
  forall total lg,
    max_size < total ->
    size_loop fl total lg
    = mkCstate [] total
               (lg ++ map (fun c => RemoveFailed (filepath c)) fl).
Proof.
  induction fl as [|c rest IH]; intros Hun total lg Ht.
  - cbn. now rewrite app_nil_r.
  - inversion Hun as [|? ? Hc Hrest]; subst. cbn [Cleanup.size_loop].
    destruct (total >? max_size) eqn:E; zprop; [|lia].
    unfold evict. rewrite Hc, (IH Hrest) by exact Ht.
    cbn [map]. now rewrite <- app_assoc.
Qed.

Lemma attempted_failed (l : list candidate) :
  attempted (map (fun c => RemoveFailed (filepath c)) l) = map filepath l.
Proof.
  induction l as [|c l IH]; [reflexivity|]. cbn [map attempted].
  now rewrite IH.
Qed.

Lemma deleted_failed (l : list candidate) :
  deleted (map (fun c => RemoveFailed (filepath c)) l) = [].
Proof. induction l as [|c l IH]; [reflexivity|]. exact IH. Qed.

(** X11. A failed removal takes the file off the candidate list and leaves the
    running total as it is.  So when no candidate can be removed and the
    candidates exceed the size limit, the cycle tries every candidate,
    oldest first, removes none, and ends with no candidate and the total
    unchanged. *)
Theorem failed_removals_exhaust_candidates (listing : list dirent) :
  0 <= max_files ->
  unremovable can_remove (files (scan listing)) ->
  max_size < sum_sizes (files (scan listing)) ->
  exists st,
    cycle (Some listing) = Completed st /\
    files st = [] /\
    attempted (log st) = map filepath (ordered listing) /\
    deleted (log st) = deleted (log (scan listing)) /\
    total_size st = sum_sizes (files (scan listing)).
Proof.
  intros Hmax Hun Hsz. cbn [Cleanup._cleanup_cycle].
  assert (Hun' : unremovable can_remove (sort_by_time (files (scan listing)))).
  { unfold unremovable in *. eapply Permutation_Forall; [apply sort_perm|].
    exact Hun. }
  rewrite (count_loop_unremovable _ Hmax Hun'). cbn [files total_size log].
  set (ord := sort_by_time (files (scan listing))) in *.
  set (k := Z.to_nat (Z.of_nat (List.length ord) - max_files)).
  rewrite size_loop_unremovable.
  - eexists. split; [reflexivity|]. cbn [files total_size log].
    split; [reflexivity|].
    rewrite !attempted_app, !deleted_app, !attempted_failed, !deleted_failed.
    unfold Cleanup.scan at 1. rewrite fold_scan_attempted.
    cbn [log attempted app].
    rewrite <- map_app, firstn_skipn, !app_nil_r.
    split; [reflexivity|]. split; [reflexivity|]. apply scan_total.
  - unfold unremovable in *. rewrite <- (firstn_skipn k ord) in Hun'.
    apply Forall_app in Hun'. tauto.
  - now rewrite scan_total.
Qed.

End CleanupMore.

(** ** A second retention pass *)

Section SecondPass.
Import Cleanup After.

Variable lower : string -> string.
Variable fromtimestamp : Z -> option Z.
Variable output_dir : string.
Variable max_files max_size : Z.
Variable can_remove : string -> bool.

Local Abbreviation scan :=
  (scan lower fromtimestamp output_dir can_remove).
Local Abbreviation scan_step :=
  (scan_step lower fromtimestamp output_dir can_remove).
Local Abbreviation candidate_of :=
  (candidate_of lower fromtimestamp output_dir).
Local Abbreviation cycle :=
  (_cleanup_cycle lower fromtimestamp output_dir max_files max_size can_remove).
Local Abbreviation ordered :=
  (ordered_candidates lower fromtimestamp output_dir can_remove).

Lemma mem_spec (p : string) (paths : list string) :
  mem p paths = true <-> In p paths.
Proof.
  unfold mem. rewrite existsb_exists. split.
  - intros (q & Hq & E). apply String.eqb_eq in E. now subst.
  - intros H. exists p. split; [exact H|apply String.eqb_refl].
Qed.

Lemma filter_all {A : Type} (f : A -> bool) (l : list A) :
  (forall x, In x l -> f x = true) -> filter f l = l.
Proof.
  induction l as [|a l IH]; cbn; intros H; [reflexivity|].
  rewrite (H a) by now left. f_equal. apply IH. intros x Hx. apply H.
  now right.
Qed.

Lemma filter_none {A : Type} (f : A -> bool) (l : list A) :
  (forall x, In x l -> f x = false) -> filter f l = [].
Proof.
  induction l as [|a l IH]; cbn; intros H; [reflexivity|].
  rewrite (H a) by now left. apply IH. intros x Hx. apply H. now right.
Qed.

(** Filtering commutes with the insertion into a sorted list. *)
Lemma insert_filter (f : candidate -> bool) (c : candidate)
      (l : list candidate) :
  StronglySorted older_eq l ->
  filter f (insert_by_time c l)
  = if f c then insert_by_time c (filter f l) else filter f l.
Proof.
  induction 1 as [|d l HS IH HF]; cbn [insert_by_time filter].
  - destruct (f c); reflexivity.
  - destruct (file_time c <=? file_time d) eqn:E; zprop.
    + cbn [filter]. destruct (f c) eqn:Ec; [|reflexivity].
      destruct (f d) eqn:Ed.
      * cbn [insert_by_time]. apply Z.leb_le in E. now rewrite E.
      * (* [d] is dropped: [c] goes in front of what is kept of [l] *)
        assert (Hfront : forall l', Forall (older_eq d) l' ->
                   insert_by_time c (filter f l') = c :: filter f l').
        { intros l' Hl'. induction Hl' as [|x l' Hx Hl' IH']; [reflexivity|].
          cbn [filter]. destruct (f x); [|exact IH'].
          cbn [insert_by_time]. unfold older_eq in Hx.
          assert (Hle : (file_time c <=? file_time x) = true)
            by (apply Z.leb_le; lia).
          now rewrite Hle. }
        now rewrite Hfront.
    + cbn [filter]. rewrite IH. destruct (f d) eqn:Ed, (f c) eqn:Ec;
        try reflexivity.
      cbn [insert_by_time].
      assert (Hgt : (file_time c <=? file_time d) = false)
        by (apply Z.leb_gt; lia).
      now rewrite Hgt.
Qed.

(** The stable sort of a selection is the selection of the stable sort. *)
Lemma sort_filter (f : candidate -> bool) (l : list candidate) :
  sort_by_time (filter f l) = filter f (sort_by_time l).
Proof.
  induction l as [|c l IH]; [reflexivity|].
  cbn [filter sort_by_time fold_right]. fold (sort_by_time l).
  rewrite insert_filter by apply sort_sorted.
  destruct (f c); [|exact IH].
  cbn [sort_by_time fold_right]. fold (sort_by_time (filter f l)).
  now rewrite IH.
Qed.

Lemma candidate_path (e : dirent) (c : candidate) :
  In c (candidate_of e) -> filepath c = path_join output_dir (d_name e).
Proof.
  intros H. apply candidate_of_in in H as (s & key & _ & _ & _ & _ & ->).
  reflexivity.
Qed.

(** The candidates of what is left of the directory are the candidates
    that were not removed. *)
Lemma candidates_after (gone : list string) (l : list dirent) :
  flat_map candidate_of (dir_after output_dir gone l)
  = filter (fun c => negb (mem (filepath c) gone))
           (flat_map candidate_of l).
Proof.
  unfold dir_after. induction l as [|e l IH]; [reflexivity|].
  cbn [filter flat_map]. rewrite filter_app.
  destruct (negb (mem (path_join output_dir (d_name e)) gone)) eqn:E.
  - cbn [flat_map]. rewrite IH. f_equal. symmetry. apply filter_all.
    intros c Hc. now rewrite (candidate_path e c Hc).
  - rewrite IH, (filter_none _ (candidate_of e)); [reflexivity|].
    intros c Hc. now rewrite (candidate_path e c Hc).
Qed.

Lemma nodup_app_right {A : Type} (l1 l2 : list A) (x : A) :
  NoDup (l1 ++ l2) -> In x l2 -> ~ In x l1.
Proof.
  induction l1 as [|a l1 IH]; cbn; [tauto|].
  intros H Hx [->|H1]; inversion H as [|? ? Ha Hn]; subst.
  - apply Ha. apply in_or_app. now right.
  - now apply (IH Hn Hx).
Qed.

(** X12. After a cycle in which every removal succeeded, a second cycle on
    what is left of the directory removes nothing and attempts nothing: it
    ends with the same candidates and the same total. *)
Theorem second_pass_removes_nothing (listing : list dirent) :
  NoDup (map d_name listing) ->
  0 <= max_files ->
  removable can_remove (files (scan listing)) ->
  exists st1 st2,
    cycle (Some listing) = Completed st1 /\
    cycle (Some (dir_after output_dir (deleted (log st1)) listing))
    = Completed st2 /\
    files st2 = files st1 /\
    total_size st2 = total_size st1 /\
    deleted (log st2) = [] /\
    attempted (log st2) = [].
Proof.
  intros Hnd Hmax Hrm.
  destruct (cycle_shape lower fromtimestamp output_dir max_files max_size
                        can_remove listing Hmax Hrm)
    as (k & st & Hrun & _ & Hdel & Hfiles & Hk & Hstop & Htot & _).
  set (ord := ordered listing) in *.
  set (gone := deleted (log st)) in *.
  set (listing' := dir_after output_dir gone listing).
  assert (Hperm : Permutation (flat_map candidate_of listing) ord).
  { unfold ord, ordered_candidates. rewrite scan_files. apply sort_perm. }
  assert (Hpaths : NoDup (map filepath ord)).
  { eapply Permutation_NoDup; [apply Permutation_map; exact Hperm|].
    now apply candidates_nodup. }
  (* what the second scan collects, once sorted, is what the first left *)
  assert (Hkeep : filter (fun c => negb (mem (filepath c) gone)) ord
                  = skipn k ord).
  { rewrite <- (firstn_skipn k ord) at 1. rewrite filter_app.
    rewrite (filter_all _ (skipn k ord)), (filter_none _ (firstn k ord));
      [reflexivity| |].
    - intros c Hc. apply negb_false_iff. apply mem_spec.
      rewrite Hdel. apply in_or_app. right. now apply in_map.
    - intros c Hc. apply negb_true_iff.
      destruct (mem (filepath c) gone) eqn:Em; [|reflexivity]. exfalso.
      apply mem_spec in Em. rewrite Hdel in Em.
      apply in_app_or in Em as [Em|Em].
      + unfold Cleanup.scan in Em.
        apply fold_scan_deleted_segment in Em
          as [[]|(e0 & s0 & He0 & _ & Hs0 & Hz & Hp & _)].
        assert (Hcin : In c (flat_map candidate_of listing)).
        { eapply Permutation_in; [symmetry; exact Hperm|].
          rewrite <- (firstn_skipn k ord). apply in_or_app. now right. }
        apply in_flat_map in Hcin as (e1 & He1 & Hc1).
        apply candidate_of_in in Hc1 as (s1 & key1 & _ & Hs1 & Hnz & _ & ->).
        cbn in Hp. apply path_join_inj in Hp.
        assert (e1 = e0) by (eapply same_name_same_entry; eauto).
        subst e1. congruence.
      + rewrite <- (firstn_skipn k ord), map_app in Hpaths.
        apply (nodup_app_right _ _ (filepath c) Hpaths); [|exact Em].
        now apply in_map. }
  assert (Hord' : ordered listing'
                  = files st).
  { unfold ordered_candidates. rewrite scan_files. unfold listing'.
    rewrite candidates_after, sort_filter.
    fold (ordered listing).
    rewrite <- (scan_files lower fromtimestamp output_dir can_remove listing).
    fold (ordered listing). fold ord.
    now rewrite Hkeep, Hfiles. }
  assert (Hperm' : Permutation (files (scan listing')) (files st)).
  { rewrite <- Hord'. apply sort_perm. }
  assert (Hwithin :
    cycle (Some listing')
    = Completed (mkCstate (ordered listing')
                          (sum_sizes (files (scan listing')))
                          (log (scan listing')))).
  { cbn [Cleanup._cleanup_cycle].
    rewrite count_loop_within.
    2:{ rewrite sort_length, (Permutation_length Hperm'), Hfiles,
          length_skipn. lia. }
    cbn [files total_size log]. rewrite size_loop_within.
    - now rewrite scan_total.
    - rewrite scan_total, (sum_sizes_perm _ _ Hperm').
      destruct Hstop as [Hs|Hs]; [left; lia|right].
      fold (ordered listing').
      now rewrite Hord'. }
  exists st, (mkCstate (ordered listing')
                       (sum_sizes (files (scan listing')))
                       (log (scan listing'))).
  split; [exact Hrun|]. split; [exact Hwithin|]. cbn [files total_size log].
  split; [exact Hord'|].
  split; [rewrite (sum_sizes_perm _ _ Hperm'); now rewrite Htot|].
  split.
  - destruct (deleted (log (scan listing'))) as [|p tl] eqn:Ed;
      [reflexivity|]. exfalso.
    assert (Hp : In p (deleted (log (scan listing'))))
      by (rewrite Ed; now left).
    unfold Cleanup.scan in Hp.
    apply fold_scan_deleted_segment in Hp
      as [[]|(e & s & He & Hm & Hs & Hz & -> & Hr)].
    unfold listing', dir_after in He. apply filter_In in He as [He Hk'].
    apply negb_true_iff in Hk'.
    assert (Hin : mem (path_join output_dir (d_name e)) gone = true).
    { apply mem_spec. rewrite Hdel. apply in_or_app. left.
      unfold Cleanup.scan. eapply fold_scan_removes_empty; eauto. }
    congruence.
  - unfold Cleanup.scan. now rewrite fold_scan_attempted.
Qed.

End SecondPass.

(** ** Segment names *)

Section NameFacts.

Lemma ascii_lower_app (a b : string) :
  ascii_lower (a ++ b) = (ascii_lower a ++ ascii_lower b)%string.
Proof. induction a as [|c a IH]; cbn; [reflexivity|now rewrite IH]. Qed.

Lemma string_length_app (a b : string) :
  String.length (a ++ b) = (String.length a + String.length b)%nat.
Proof. induction a as [|c a IH]; cbn; [reflexivity|now rewrite IH]. Qed.

Lemma substring_all (s : string) : substring 0 (String.length s) s = s.
Proof. induction s as [|c s IH]; cbn; [reflexivity|now rewrite IH]. Qed.

Lemma substring_after (p q : string) :
  substring (String.length p) (String.length q) (p ++ q) = q.
Proof. induction p as [|c p IH]; cbn; [apply substring_all|exact IH]. Qed.

Lemma substring_split (s : string) :
  forall n m, (n + m = String.length s)%nat ->
              s = (substring 0 n s ++ substring n m s)%string.
Proof.
  induction s as [|c s IH]; intros n m H; cbn in H.
  - assert (n = 0%nat) by lia. assert (m = 0%nat) by lia. now subst.
  - destruct n as [|n].
    + cbn in H. subst m. cbn. now rewrite substring_all.
    + cbn. f_equal. apply IH. lia.
Qed.

(** [s.endswith(suffix)] holds exactly when [s] is something followed by
    [suffix]. *)
Lemma endswith_spec (s suffix : string) :
  endswith s suffix = true <-> exists p, s = (p ++ suffix)%string.
Proof.
  unfold endswith. rewrite andb_true_iff, Nat.leb_le, String.eqb_eq. split.
  - intros [Hle Hsub].
    exists (substring 0 (String.length s - String.length suffix) s).
    rewrite <- Hsub at 2. apply substring_split. lia.
  - intros (p & ->). rewrite string_length_app. split; [lia|].
    replace (String.length p + String.length suffix
             - String.length suffix)%nat with (String.length p) by lia.
    apply substring_after.
Qed.

(** The ASCII mapping leaves a trailing [.mkv] in place. *)
Lemma ascii_lower_keeps_extension : keeps_extension ascii_lower.
Proof.
  intros stem. rewrite ascii_lower_app. apply endswith_spec.
  now exists (ascii_lower stem).
Qed.

End NameFacts.

(** ** The directory scan *)

Section ScanFacts.
Import Watch.

Variable lower : string -> string.
Variable dir : string.

(** X14. The scan finds nothing exactly when the directory cannot be listed or
    no listed segment that can be examined has a modification time above
    0: a segment stamped at or before the epoch is never found. *)
Theorem find_latest_none_iff (listing : option (list dirent)) :
  find_latest_mkv lower dir listing = None <->
  (listing = None \/
   exists names, listing = Some names /\
     forall e s, In e names -> is_mkv lower (d_name e) = true ->
                 d_stat e = Some s -> st_mtime s <= 0).
Proof.
  destruct listing as [names|]; cbn [find_latest_mkv];
    [|split; auto].
  pose proof (latest_loop_spec lower (mkConfig dir 0 0 0) names None 0) as H.
  cbn [output_dir] in H. split.
  - intros Hn. right. exists names. split; [reflexivity|].
    destruct H as [[_ Hall]|(e & s & _ & _ & _ & Hr & _)]; [exact Hall|].
    congruence.
  - intros [Hl|(names' & Hl & Hall)]; [discriminate|].
    injection Hl as <-.
    destruct H as [[Hr _]|(e & s & He & Hm & Hs & _ & Hpos & _)];
      [exact Hr|].
    specialize (Hall e s He Hm Hs). lia.
Qed.

Lemma latest_loop_first (names : list dirent) :
  forall (latest_file : option string) (latest_mtime : Z),
    (latest_loop lower dir names latest_file latest_mtime = latest_file /\
     forall e s, In e names -> is_mkv lower (d_name e) = true ->
                 d_stat e = Some s -> st_mtime s <= latest_mtime)
    \/
    (exists pre e s post,
        names = pre ++ e :: post /\
        is_mkv lower (d_name e) = true /\ d_stat e = Some s /\
        latest_loop lower dir names latest_file latest_mtime
        = Some (path_join dir (d_name e)) /\
        latest_mtime < st_mtime s /\
        (forall e' s', In e' pre -> is_mkv lower (d_name e') = true ->
                       d_stat e' = Some s' -> st_mtime s' < st_mtime s) /\
        (forall e' s', In e' post -> is_mkv lower (d_name e') = true ->
                       d_stat e' = Some s' -> st_mtime s' <= st_mtime s)).
Proof.
  induction names as [|x names IH]; intros lf lm; cbn [latest_loop].
  { left. split; [reflexivity|]. intros e s []. }
  assert (Hskip :
    (is_mkv lower (d_name x) = true ->
     forall sx, d_stat x = Some sx -> st_mtime sx <= lm) ->
    (latest_loop lower dir names lf lm = lf /\
     forall e s, In e (x :: names) -> is_mkv lower (d_name e) = true ->
                 d_stat e = Some s -> st_mtime s <= lm)
    \/
    (exists pre e s post,
        x :: names = pre ++ e :: post /\
        is_mkv lower (d_name e) = true /\ d_stat e = Some s /\
        latest_loop lower dir names lf lm = Some (path_join dir (d_name e)) /\
        lm < st_mtime s /\
        (forall e' s', In e' pre -> is_mkv lower (d_name e') = true ->
                       d_stat e' = Some s' -> st_mtime s' < st_mtime s) /\
        (forall e' s', In e' post -> is_mkv lower (d_name e') = true ->
                       d_stat e' = Some s' -> st_mtime s' <= st_mtime s))).
  { intros Hx.
    destruct (IH lf lm)
      as [[Heq Hall]|(pre & e & s & post & Hn & H1 & H2 & H3 & H4 & H5 & H6)].
    - left. split; [exact Heq|].
      intros e s [<-|He] Hmk Hs; [now apply Hx | now apply (Hall e s)].
    - right. exists (x :: pre), e, s, post.
      split; [now rewrite Hn|]. split; [exact H1|]. split; [exact H2|].
      split; [exact H3|]. split; [exact H4|]. split; [|exact H6].
      intros e' s' [<-|He'] Hmk Hs; [|now apply (H5 e' s')].
      specialize (Hx Hmk s' Hs). lia. }
  destruct (is_mkv lower (d_name x)) eqn:Hm;
    [|apply Hskip; intros; discriminate].
  destruct (d_stat x) as [sx|] eqn:Hsx;
    [|apply Hskip; intros; discriminate].
  destruct (st_mtime sx >? lm) eqn:Hgt; zprop.
  - right.
    destruct (IH (Some (path_join dir (d_name x))) (st_mtime sx))
      as [[Heq Hall]|(pre & e & s & post & Hn & H1 & H2 & H3 & H4 & H5 & H6)].
    + exists [], x, sx, names.
      split; [reflexivity|]. split; [exact Hm|]. split; [exact Hsx|].
      split; [exact Heq|]. split; [exact Hgt|].
      split; [intros e' s' []|exact Hall].
    + exists (x :: pre), e, s, post.
      split; [now rewrite Hn|]. split; [exact H1|]. split; [exact H2|].
      split; [exact H3|]. split; [lia|]. split; [|exact H6].
      intros e' s' [<-|He'] Hmk Hs; [|now apply (H5 e' s')].
      rewrite Hsx in Hs. injection Hs as <-. lia.
  - apply Hskip. intros _ sx' Hsx'. injection Hsx' as <-. exact Hgt.
Qed.

(** X15. What the scan returns is the first listed segment among those with
    the greatest modification time: every segment listed before it is
    strictly older, none listed after it is newer. *)
Theorem find_latest_first_of_newest (names : list dirent) (p : string) :
  find_latest_mkv lower dir (Some names) = Some p ->
  exists pre e s post,
    names = pre ++ e :: post /\
    is_mkv lower (d_name e) = true /\ d_stat e = Some s /\
    p = path_join dir (d_name e) /\
    0 < st_mtime s /\
    (forall e' s', In e' pre -> is_mkv lower (d_name e') = true ->
                   d_stat e' = Some s' -> st_mtime s' < st_mtime s) /\
    (forall e' s', In e' post -> is_mkv lower (d_name e') = true ->
                   d_stat e' = Some s' -> st_mtime s' <= st_mtime s).
Proof.
  cbn [find_latest_mkv]. intros H.
  destruct (latest_loop_first names None 0)
    as [[Heq _]|(pre & e & s & post & Hn & H1 & H2 & H3 & H4 & H5 & H6)].
  - congruence.
  - rewrite H3 in H. injection H as <-.
    exists pre, e, s, post. auto 10.
Qed.

End ScanFacts.

(** ** The file-event handler *)

Section HandlerFacts.
Import Watch.

Variable lower : string -> string.
Variable normpath : string -> string.

(** X16. A notification for the file reported last changes nothing, not even
    the progress time: handling the same event a second time is the
    identity. *)
Theorem on_closed_repeat_ignored (now now' : Z) (ev : fs_event)
        (last_file : option string) (r : recorder) :
  on_closed lower normpath now' ev
            (fst (on_closed lower normpath now ev last_file r))
            (snd (on_closed lower normpath now ev last_file r))
  = on_closed lower normpath now ev last_file r.
Proof.
  unfold on_closed.
  destruct (negb (is_directory ev) && is_mkv lower (src_path ev))%bool eqn:E;
    cbn [fst snd]; rewrite ?E; [|reflexivity].
  destruct last_file as [l|]; cbn [fst snd].
  - destruct (normpath (src_path ev) =? l)%string eqn:El; cbn [fst snd].
    + now rewrite El.
    + now rewrite String.eqb_refl.
  - now rewrite String.eqb_refl.
Qed.

(** X17. The handler never touches the last observed size or the two flags, and
    for a directory or a name that is not a segment it changes nothing at
    all. *)
Theorem on_closed_frame (now : Z) (ev : fs_event)
        (last_file : option string) (r : recorder) :
  last_size (snd (on_closed lower normpath now ev last_file r)) = last_size r /\
  stop_event (snd (on_closed lower normpath now ev last_file r))
  = stop_event r /\
  restart_event (snd (on_closed lower normpath now ev last_file r))
  = restart_event r /\
  (is_directory ev = true \/ is_mkv lower (src_path ev) = false ->
   on_closed lower normpath now ev last_file r = (last_file, r)).
Proof.
  unfold on_closed.
  destruct (is_directory ev), (is_mkv lower (src_path ev)); cbn;
    try (repeat split; auto; congruence).
  destruct last_file as [l|]; cbn.
  - destruct (normpath (src_path ev) =? l)%string; cbn;
      repeat split; auto; try congruence; intros [H|H]; discriminate.
  - repeat split; auto; intros [H|H]; discriminate.
Qed.

End HandlerFacts.

(** ** More on the watchdog *)

Section WatchMore.
Import Watch.

Variable lower : string -> string.
Variable cfg : config.
Variable start_time : Z.

Local Abbreviation body := (monitor_body lower cfg start_time).
Local Abbreviation loop := (monitor_loop lower cfg start_time).

Ltac body_split :=
  unfold monitor_body, other_file, not_found_handler, truthy;
  repeat match goal with
         | |- context [match ?x with _ => _ end] =>
             lazymatch x with
             | context [match _ with _ => _ end] => fail
             | _ => destruct x eqn:?
             end
         end;
  cbn [s_rec s_events s_control].

(** One iteration either raises nothing and leaves both flags alone, or
    raises one request, sets the restart flag and goes on to the loop
    test. *)
Lemma body_restart_cases (fc : bool) (o : observation) (r : recorder) :
  stop_event (s_rec (body fc o r)) = stop_event r /\
  ((restart_requests (s_events (body fc o r)) = 0%nat /\
    restart_event (s_rec (body fc o r)) = restart_event r)
   \/
   (restart_requests (s_events (body fc o r)) = 1%nat /\
    restart_event (s_rec (body fc o r)) = true /\
    s_control (body fc o r) = Continue)).
Proof.
  body_split; cbn; auto.
Qed.

Lemma clearings_cons (o : observation) (obs : list observation) :
  clearings (o :: obs)
  = ((if o_clear o then 1 else 0) + clearings obs)%nat.
Proof. unfold clearings. cbn [filter]. now destruct (o_clear o). Qed.

Lemma loop_one_restart (fc : bool) (obs : list observation) :
  forall r,
    (restart_requests (r_trace (loop fc obs r)) <= 1 + clearings obs)%nat /\
    (clearings obs = 0%nat ->
     restart_requests (r_trace (loop fc obs r)) = 1%nat ->
     restart_event (r_rec (loop fc obs r)) = true /\
     r_status (loop fc obs r) = Exited).
Proof.
  induction obs as [|o rest IH]; intros r; cbn [monitor_loop].
  - destruct (stop_event r || restart_event r)%bool; cbn; split;
      try lia; discriminate.
  - rewrite clearings_cons.
    destruct (stop_event r || restart_event r)%bool eqn:Ef;
      [cbn; split; try lia; discriminate|].
    apply orb_false_iff in Ef as [Hs Hr].
    destruct (body_restart_cases fc o r) as [Hstop [[H0 Hre]|[H1 [Hre Hc]]]].
    + destruct (s_control (body fc o r)); cbn [r_trace r_rec r_status].
      * rewrite restart_requests_app, H0. cbn [Nat.add].
        destruct (IH (observe_flags o (s_rec (body fc o r)))) as [IH1 IH2].
        split; [lia|]. intros Hcl. apply IH2. lia.
      * rewrite H0. split; [lia|discriminate].
    + rewrite Hc. cbn [r_trace r_rec r_status].
      rewrite restart_requests_app, H1.
      destruct (o_clear o) eqn:Hclear.
      * destruct (IH (observe_flags o (s_rec (body fc o r)))) as [IH1 _].
        split; [lia|]. intros Hcl. lia.
      * assert (Hflag : restart_event (observe_flags o (s_rec (body fc o r)))
                        = true)
          by (cbn [observe_flags restart_event]; now rewrite Hclear, Hre).
        rewrite (loop_exits_on_restart lower cfg start_time fc rest _ Hflag).
        cbn [r_trace r_rec r_status restart_requests filter List.length].
        split; [lia|]. intros _ _. auto.
Qed.

(** X18. Whatever happens to the files and whatever other threads do, one run
    of the watchdog calls [restart_event.set()] at most once more than
    [start_recording] clears the flag during the run: after a request the
    loop test ends the run unless the flag was cleared in between.  In a
    run without such a clearing there is at most one request; when there
    is one, the flag is set at the end and the loop has ended by its
    test. *)
Theorem watchdog_at_most_one_restart (obs : list observation)
        (r : recorder) :
  (restart_requests (r_trace (_monitor_process lower cfg start_time obs r))
   <= 1 + clearings obs)%nat
  /\
  (clearings obs = 0%nat ->
   restart_requests (r_trace (_monitor_process lower cfg start_time obs r))
   = 1%nat ->
   restart_event (r_rec (_monitor_process lower cfg start_time obs r)) = true /\
   r_status (_monitor_process lower cfg start_time obs r) = Exited).
Proof.
  unfold _monitor_process. apply loop_one_restart.
Qed.

(** *** No tracked file *)

(** X19. While no file is tracked ([None] or the empty string) the watchdog
    only sleeps one second per iteration: it raises no restart however
    much time passes, so the file-creation timeout cannot fire. *)
Theorem untracked_never_restarts (obs : list observation) (r : recorder) :
  current_file r = None \/ current_file r = Some "" ->
  restart_requests (r_trace (_monitor_process lower cfg start_time obs r))
  = 0%nat /\
  Forall (fun e => e = Sleep 1)
         (r_trace (_monitor_process lower cfg start_time obs r)) /\
  r_status (_monitor_process lower cfg start_time obs r) <> Crashed /\
  current_file (r_rec (_monitor_process lower cfg start_time obs r))
  = current_file r.
Proof.
  unfold _monitor_process. intros Hcur.
  assert (Ht : forall r', current_file r' = current_file r ->
                          truthy (current_file r') = None).
  { intros r' ->. destruct Hcur as [-> | ->]; reflexivity. }
  assert (Hgen : forall r', current_file r' = current_file r ->
    restart_requests (r_trace (loop false obs r')) = 0%nat /\
    Forall (fun e => e = Sleep 1) (r_trace (loop false obs r')) /\
    r_status (loop false obs r') <> Crashed /\
    current_file (r_rec (loop false obs r')) = current_file r).
  { induction obs as [|o rest IH]; intros r' Hr'; cbn [monitor_loop].
    - destruct (stop_event r' || restart_event r')%bool; cbn;
        repeat split; auto; discriminate.
    - destruct (stop_event r' || restart_event r')%bool;
        [cbn; repeat split; auto; discriminate|].
      unfold monitor_body. rewrite (Ht r' Hr').
      cbn [s_control s_events s_rec r_trace r_rec r_status].
      destruct (IH (observe_flags o r') Hr') as (H1 & H2 & H3 & H4).
      rewrite restart_requests_app, H1. repeat split; auto.
      cbn [app]. now constructor. }
  now apply Hgen.
Qed.

(** *** The tracked file is missing *)

(** X20. The tracked path does not exist and the scan finds no segment.  Once
    more than [file_timeout] has passed since the watchdog started, the
    iteration raises one restart and sleeps a second, and the loop ends
    (unless the flag is cleared within that second, while
    [start_recording] is still joining the thread); until then it only
    sleeps a second. *)
Theorem missing_file_timeout
        (o : observation) (rest : list observation) (r : recorder)
        (target : string) :
  current_file r = Some target -> target <> "" ->
  stop_event r = false -> restart_event r = false ->
  o_exists o = false ->
  find_latest_mkv lower (output_dir cfg) (o_listing o) = None ->
  (file_timeout cfg < o_now o - start_time ->
   body false o r
   = mkStep (set_restart r)
            [Log ERROR; SetRestart CreateTimeoutSite; Sleep 1] Continue /\
   (o_clear o = false ->
    r_trace (_monitor_process lower cfg start_time (o :: rest) r)
    = [Log ERROR; SetRestart CreateTimeoutSite; Sleep 1] /\
    r_status (_monitor_process lower cfg start_time (o :: rest) r) = Exited /\
    restart_event
      (r_rec (_monitor_process lower cfg start_time (o :: rest) r)) = true))
  /\
  (o_now o - start_time <= file_timeout cfg ->
   body false o r = mkStep r [Sleep 1] Continue).
Proof.
  intros Hcur Hne Hstop Hres Hex Hscan.
  assert (Hbody : body false o r
                  = if o_now o - start_time >? file_timeout cfg
                    then mkStep (set_restart r)
                                [Log ERROR; SetRestart CreateTimeoutSite;
                                 Sleep 1] Continue
                    else mkStep r [Sleep 1] Continue).
  { unfold monitor_body.
    rewrite (truthy_tracked r target Hcur Hne), Hex, Hscan. reflexivity. }
  split; intros Ht.
  - assert (E : (o_now o - start_time >? file_timeout cfg) = true)
      by (rewrite Z.gtb_ltb; now apply Z.ltb_lt).
    rewrite E in Hbody. split; [exact Hbody|].
    intros Hclear. unfold _monitor_process. cbn [monitor_loop].
    rewrite Hstop, Hres, Hbody. cbn [orb s_control s_events s_rec].
    assert (Hflag : restart_event (observe_flags o (set_restart r)) = true)
      by (cbn; now rewrite Hclear).
    rewrite (loop_exits_on_restart lower cfg start_time false rest _ Hflag).
    cbn [r_trace r_status r_rec]. rewrite app_nil_r. auto.
  - assert (E : (o_now o - start_time >? file_timeout cfg) = false)
      by (rewrite Z.gtb_ltb; now apply Z.ltb_ge).
    now rewrite E in Hbody.
Qed.

(** X21. The tracked path does not exist and the scan finds a segment [f]: the
    watchdog adopts [f] with the current time and raises nothing, however
    long the path has been missing.  If [f] is gone when its size is read,
    the exception is not caught: the thread ends there, with [f] adopted,
    the old size kept and no restart raised, and later polls never
    happen. *)
Theorem missing_file_rediscovery
        (o : observation) (rest : list observation) (r : recorder)
        (target f : string) :
  current_file r = Some target -> target <> "" ->
  stop_event r = false -> restart_event r = false ->
  o_exists o = false ->
  truthy (find_latest_mkv lower (output_dir cfg) (o_listing o)) = Some f ->
  (forall z, o_latest_size o = Some z ->
     body false o r
     = mkStep (mkRecorder (Some f) (o_now o) z false false) [Log INFO]
              Continue)
  /\
  (o_latest_size o = None ->
   _monitor_process lower cfg start_time (o :: rest) r
   = mkRun (mkRecorder (Some f) (o_now o) (last_size r) false false)
           false [Log INFO] Crashed).
Proof.
  intros Hcur Hne Hstop Hres Hex Hscan. split.
  - intros z Hz. unfold monitor_body.
    rewrite (truthy_tracked r target Hcur Hne), Hex, Hscan, Hz.
    cbn [negb]. unfold with_size, adopt. cbn. now rewrite Hstop, Hres.
  - intros Hz. unfold _monitor_process. cbn [monitor_loop].
    rewrite Hstop, Hres. cbn [orb]. unfold monitor_body.
    rewrite (truthy_tracked r target Hcur Hne), Hex, Hscan, Hz.
    cbn [negb s_control s_rec s_events]. unfold adopt.
    now rewrite Hstop, Hres.
Qed.

(** *** The size did not grow *)

(** X22. The size is not above the last observed size and the scan reports
    another file [f]: the watchdog switches to [f], takes its size and the
    current time as the new progress, and raises nothing, even when the
    stall timeout has long passed for the old file. *)
Theorem switch_instead_of_restart
        (fc : bool) (o : observation) (r : recorder)
        (target f : string) (sz z : Z) :
  current_file r = Some target -> target <> "" ->
  o_exists o = true -> o_size o = Some sz -> sz <= last_size r ->
  other_file lower cfg target o = Some f -> o_latest_size o = Some z ->
  body fc o r
  = mkStep (mkRecorder (Some f) (o_now o) z (stop_event r) (restart_event r))
           [Log INFO] Continue.
Proof.
  intros Hcur Hne Hex Hsz Hle Hother Hz. unfold monitor_body.
  rewrite (truthy_tracked r target Hcur Hne), Hex, Hsz, Hother, Hz.
  cbn [negb].
  assert (E : (sz >? last_size r) = false)
    by (rewrite Z.gtb_ltb; now apply Z.ltb_ge).
  now rewrite E.
Qed.

(** X23. Progress is a size above the last observed size and nothing else.  A
    poll that reads a size at or below it (the same file unchanged or
    truncated, or a new smaller file) leaves the recorded size and
    progress time as they are; with no other file to switch to, it raises
    the restart once the stall timeout has passed since that progress
    time. *)
Theorem no_progress_unless_larger
        (fc : bool) (o : observation) (r : recorder)
        (target : string) (sz : Z) :
  current_file r = Some target -> target <> "" ->
  o_exists o = true -> o_size o = Some sz -> sz <= last_size r ->
  other_file lower cfg target o = None ->
  (timeout cfg < o_now o - last_check_time r ->
   body fc o r
   = mkStep (set_restart r)
            [Log ERROR; SetRestart StallSite; Sleep (monitor_interval cfg)]
            Continue)
  /\
  (o_now o - last_check_time r <= timeout cfg ->
   body fc o r = mkStep r [Sleep (monitor_interval cfg)] Continue).
Proof.
  intros Hcur Hne Hex Hsz Hle Hother.
  assert (E : (sz >? last_size r) = false)
    by (rewrite Z.gtb_ltb; now apply Z.ltb_ge).
  split; intros Ht; unfold monitor_body;
    rewrite (truthy_tracked r target Hcur Hne), Hex, Hsz, Hother;
    cbn [negb]; rewrite E.
  - assert (E2 : (o_now o - last_check_time r >? timeout cfg) = true)
      by (rewrite Z.gtb_ltb; now apply Z.ltb_lt).
    now rewrite E2.
  - assert (E2 : (o_now o - last_check_time r >? timeout cfg) = false)
      by (rewrite Z.gtb_ltb; now apply Z.ltb_ge).
    now rewrite E2.
Qed.

End WatchMore.

(** ** The recording loop *)

Section SupervisorFacts.
Import Supervisor ExitCode Watch.

Variable output_dir : string.

Lemma wait_loop_quiet (n : nat) (ticks : list tick) (r : recorder) :
  stop_event r = false -> restart_event r = false ->
  wait_loop (quiet n ++ ticks) r
  = (repeat Slept n ++ fst (fst (wait_loop ticks r)),
     snd (fst (wait_loop ticks r)), snd (wait_loop ticks r)).
Proof.
  intros Hs Hr. destruct r as [cf lct ls st re]. cbn in Hs, Hr. subst.
  induction n as [|n IH]; cbn [quiet repeat app].
  - now destruct (wait_loop ticks _) as [[evs r1] e].
  - cbn [wait_loop see_flags t_return_code t_stop t_restart stop_event
         restart_event current_file last_check_time last_size orb].
    fold (quiet n).
    change (see_flags (mkTick None false false)
                      (mkRecorder cf lct ls false false))
      with (mkRecorder cf lct ls false false).
    rewrite IH. reflexivity.
Qed.

(** X24. In the wait loop a restart request comes before the exit code: at the
    first pass where the restart flag is set the cycle calls the shutdown
    and leaves, and an exit code the child has by then is never handed to
    [_handle_exit_code]. *)
Theorem restart_beats_exit_code (n : nat) (t : tick) (more : list tick)
        (r : recorder) :
  stop_event r = false -> restart_event r = false ->
  t_restart t = true ->
  wait_loop (quiet n ++ t :: more) r
  = (repeat Slept n ++ [TerminateCalled], see_flags t r, Broke).
Proof.
  intros Hs Hr Ht. rewrite wait_loop_quiet by assumption.
  cbn [wait_loop]. cbn [see_flags restart_event].
  rewrite Hr, Ht. reflexivity.
Qed.

Lemma cycle_until_exit (c : cycle_obs) (n : nat) (code : Z)
      (more : list tick) (r : recorder) :
  stop_event r = false -> restart_event r = false ->
  c_spawn_ok c = true ->
  c_ticks c = quiet n ++ mkTick (Some code) false false :: more ->
  _single_recording_cycle output_dir c r
  = (Spawned (path_join output_dir (c_timestamp c ++ ".mkv")%string)
       :: repeat Slept n ++ [ExitHandled code],
     late_flags c
       (snd (_handle_exit_code code
                               (begin_cycle output_dir (c_timestamp c) r))),
     Broke).
Proof.
  intros Hs Hr Hok Ht. unfold _single_recording_cycle.
  rewrite Hok, Ht, wait_loop_quiet by assumption.
  destruct r as [cf lct ls st re]. cbn in Hs, Hr. subst. reflexivity.
Qed.

(** X25. After exit code 255 or 137, with no restart and no stop requested
    meanwhile, [start_recording] returns: no further child is started,
    whatever would have followed. *)
Theorem expected_exit_ends_recording
        (c : cycle_obs) (rest : list cycle_obs) (n : nat) (code : Z)
        (more : list tick) (r : recorder) :
  stop_event r = false -> restart_event r = false ->
  c_spawn_ok c = true ->
  c_ticks c = quiet n ++ mkTick (Some code) false false :: more ->
  c_late_restart c = false ->
  code = 255 \/ code = 137 ->
  fst (fst (start_recording output_dir (c :: rest) r))
  = Spawned (path_join output_dir (c_timestamp c ++ ".mkv")%string)
      :: repeat Slept n ++ [ExitHandled code] /\
  snd (start_recording output_dir (c :: rest) r) = Returned /\
  spawns (fst (fst (start_recording output_dir (c :: rest) r))) = 1%nat.
Proof.
  intros Hs Hr Hok Ht Hlate Hcode. cbn [start_recording].
  rewrite Hs, (cycle_until_exit c n code more r Hs Hr Hok Ht).
  apply expected_code_spec in Hcode.
  unfold _handle_exit_code. rewrite Hcode. cbn [snd].
  cbn [late_flags begin_cycle restart_event]. rewrite Hr, Hlate.
  cbn [orb fst snd]. repeat split.
  unfold spawns. cbn [filter is_spawn]. rewrite filter_app.
  assert (Hq : filter is_spawn (repeat Slept n) = []).
  { clear. induction n as [|m IH]; [reflexivity|exact IH]. }
  now rewrite Hq.
Qed.

(** X26. After any other exit code, with no stop requested, the restart flag
    is set by the exit handler, cleared by the loop, and the next cycle
    starts from a recorder with both flags down. *)
Theorem abnormal_exit_starts_next_cycle
        (c : cycle_obs) (rest : list cycle_obs) (n : nat) (code : Z)
        (more : list tick) (r : recorder) :
  stop_event r = false -> restart_event r = false ->
  c_spawn_ok c = true ->
  c_ticks c = quiet n ++ mkTick (Some code) false false :: more ->
  c_late_stop c = false ->
  code <> 255 -> code <> 137 ->
  start_recording output_dir (c :: rest) r
  = ((Spawned (path_join output_dir (c_timestamp c ++ ".mkv")%string)
        :: repeat Slept n ++ [ExitHandled code])
       ++ RestartCleared
       :: fst (fst (start_recording output_dir rest
                      (begin_cycle output_dir (c_timestamp c) r))),
     snd (fst (start_recording output_dir rest
                 (begin_cycle output_dir (c_timestamp c) r))),
     snd (start_recording output_dir rest
            (begin_cycle output_dir (c_timestamp c) r))).
Proof.
  intros Hs Hr Hok Ht Hlate H255 H137. cbn [start_recording].
  rewrite Hs, (cycle_until_exit c n code more r Hs Hr Hok Ht).
  assert (Hcode : expected_code code = false).
  { destruct (expected_code code) eqn:E; [|reflexivity].
    apply expected_code_spec in E. tauto. }
  unfold _handle_exit_code. rewrite Hcode.
  destruct r as [cf lct ls st re]. cbn in Hs, Hr. subst.
  cbn [begin_cycle stop_event negb snd late_flags set_restart restart_event
       orb clear_restart current_file last_check_time last_size].
  assert (E : forall r0,
             stop_event r0 = false ->
             clear_restart (late_flags c (set_restart r0))
             = mkRecorder (current_file r0) (last_check_time r0)
                          (last_size r0) false false).
  { intros r0 H0. unfold clear_restart, late_flags, set_restart. cbn.
    now rewrite H0, Hlate. }
  rewrite E by reflexivity. cbn [begin_cycle current_file last_check_time
                                  last_size stop_event restart_event].
  now destruct (start_recording output_dir rest _) as [[evs' r2] o].
Qed.

(** X27. When a cycle fails before its child runs, the restart flag set by the
    handler of the exception is still up when the next cycle starts: that
    cycle starts its child and shuts it down at the first pass of its
    wait loop, whatever the child does; only the cycle after it records. *)
Theorem failed_start_spoils_next_cycle
        (c1 c2 : cycle_obs) (rest : list cycle_obs)
        (t : tick) (more : list tick) (r : recorder) :
  stop_event r = false ->
  c_spawn_ok c1 = false ->
  c_spawn_ok c2 = true -> c_ticks c2 = t :: more ->
  exists r',
    restart_event r' = false /\
    start_recording output_dir (c1 :: c2 :: rest) r
    = ([CycleFailed;
        Spawned (path_join output_dir (c_timestamp c2 ++ ".mkv")%string);
        TerminateCalled; RestartCleared]
         ++ fst (fst (start_recording output_dir rest r')),
       snd (fst (start_recording output_dir rest r')),
       snd (start_recording output_dir rest r')).
Proof.
  intros Hs Hf Hok Ht.
  destruct r as [cf lct ls st re]. cbn in Hs. subst.
  cbn [start_recording stop_event]. unfold _single_recording_cycle.
  rewrite Hf, Hok, Ht.
  cbn -[path_join String.append].
  match goal with
  | |- context [start_recording output_dir rest ?X] => exists X
  end.
  split; [reflexivity|].
  now destruct (start_recording output_dir rest _) as [[evs' r2] o].
Qed.

(** X28. [start_recording] never returns with a restart pending: when it
    returns, a stop was requested or the restart flag is down.  It starts
    at most one child per cycle. *)
Theorem returns_without_pending_restart (cycles : list cycle_obs) :
  forall r,
    (snd (start_recording output_dir cycles r) = Returned ->
     stop_event (snd (fst (start_recording output_dir cycles r))) = true \/
     restart_event (snd (fst (start_recording output_dir cycles r))) = false)
    /\
    (spawns (fst (fst (start_recording output_dir cycles r)))
     <= List.length cycles)%nat.
Proof.
  induction cycles as [|c rest IH]; intros r; cbn [start_recording].
  - destruct (stop_event r) eqn:Hs; cbn; split; auto; discriminate.
  - destruct (stop_event r) eqn:Hs; [cbn; split; auto; lia|].
    assert (Hsp : (spawns (fst (fst (_single_recording_cycle output_dir c r)))
                   <= 1)%nat).
    { unfold _single_recording_cycle. destruct (c_spawn_ok c); [|cbn; lia].
      destruct (wait_loop (c_ticks c) _) as [[evs r2] e] eqn:Ew.
      cbn [fst]. unfold spawns. cbn [filter is_spawn List.length].
      assert (Hw : forall ticks r0,
                 filter is_spawn (fst (fst (wait_loop ticks r0))) = []).
      { induction ticks as [|t ticks IHt]; intros r0; [reflexivity|].
        cbn [wait_loop]. destruct (restart_event (see_flags t r0));
          [reflexivity|].
        destruct (t_return_code t); [reflexivity|].
        destruct (stop_event (see_flags t r0)); [reflexivity|].
        specialize (IHt (see_flags t r0)).
        destruct (wait_loop ticks (see_flags t r0)) as [[evs0 r1] e0].
        exact IHt. }
      specialize (Hw (c_ticks c) (begin_cycle output_dir (c_timestamp c) r)).
      rewrite Ew in Hw. cbn [fst] in Hw. rewrite Hw. cbn. lia. }
    destruct (_single_recording_cycle output_dir c r) as [[evs r1] e].
    cbn [fst] in Hsp. destruct e.
    + destruct (restart_event r1) eqn:Hre.
      * specialize (IH (clear_restart r1)).
        destruct (start_recording output_dir rest (clear_restart r1))
          as [[evs' r2] o]. cbn [fst snd] in *. destruct IH as [IH1 IH2].
        split; [exact IH1|].
        unfold spawns in *. rewrite filter_app, length_app.
        cbn [filter is_spawn List.length]. lia.
      * cbn [fst snd List.length]. split; [auto|lia].
    + specialize (IH (set_restart r1)).
      destruct (start_recording output_dir rest (set_restart r1))
        as [[evs' r2] o]. cbn [fst snd] in *. destruct IH as [IH1 IH2].
      split; [exact IH1|].
      unfold spawns in *. rewrite filter_app, length_app.
      cbn [filter is_spawn List.length]. lia.
    + cbn [fst snd List.length]. split; [discriminate|lia].
Qed.

(** *** The path of a cycle *)

Variable lower : string -> string.

Lemma string_app_assoc (a b c : string) :
  ((a ++ b) ++ c)%string = (a ++ (b ++ c))%string.
Proof. induction a as [|x a IH]; cbn; [reflexivity|now rewrite IH]. Qed.

Lemma cycle_path_stem (timestamp : string) :
  exists stem,
    path_join output_dir (timestamp ++ ".mkv")%string
    = (stem ++ ".mkv")%string.
Proof.
  unfold path_join.
  destruct ((output_dir =? "")%string || endswith output_dir "/")%bool.
  - exists (output_dir ++ timestamp)%string. now rewrite string_app_assoc.
  - exists (output_dir ++ "/" ++ timestamp)%string.
    now rewrite !string_app_assoc.
Qed.

Lemma cycle_path_tracked (timestamp : string) :
  truthy (Some (path_join output_dir (timestamp ++ ".mkv")%string))
  = Some (path_join output_dir (timestamp ++ ".mkv")%string).
Proof.
  destruct (cycle_path_stem timestamp) as (stem & ->). unfold truthy.
  destruct (String.eqb_spec (stem ++ ".mkv") "") as [E|E]; [|reflexivity].
  apply (f_equal String.length) in E.
  rewrite string_length_app in E. cbn in E. lia.
Qed.

(** X29. The path a cycle starts to track is taken for a segment by the test
    the handler, the scan and the retention use, whatever the directory
    and the timestamp: it ends in the literal [.mkv], so it passes the
    test with the ASCII mapping and with every lower-casing that leaves a
    trailing [.mkv] in place.  And it is not the empty string, so the
    watchdog treats it as a tracked file. *)
Theorem cycle_path_is_segment (timestamp : string) (r : recorder) :
  exists p,
    current_file (begin_cycle output_dir timestamp r) = Some p /\
    is_mkv ascii_lower p = true /\
    (keeps_extension lower -> is_mkv lower p = true) /\
    truthy (Some p) = Some p.
Proof.
  exists (path_join output_dir (timestamp ++ ".mkv")%string).
  split; [reflexivity|].
  destruct (cycle_path_stem timestamp) as (stem & Hstem).
  split; [|split; [|apply cycle_path_tracked]].
  - rewrite Hstem. apply ascii_lower_keeps_extension.
  - intros Hk. rewrite Hstem. apply Hk.
Qed.

(** X30. A new cycle changes the tracked path and nothing else: the last
    observed size and the progress time of the previous cycle stay.  So
    when the new file is polled at a size not above that old size, with no
    other file to switch to and the stall timeout passed since the old
    progress time, the watchdog requests a restart at once, whether or not
    the new file grows. *)
Theorem new_cycle_inherits_progress
        (cfg : config) (start_time : Z) (fc : bool) (o : observation)
        (r : recorder) (timestamp : string) (sz : Z) :
  output_dir = Watch.output_dir cfg ->
  o_exists o = true -> o_size o = Some sz -> sz <= last_size r ->
  other_file lower cfg (path_join output_dir (timestamp ++ ".mkv")%string) o
  = None ->
  timeout cfg < o_now o - last_check_time r ->
  last_size (begin_cycle output_dir timestamp r) = last_size r /\
  last_check_time (begin_cycle output_dir timestamp r) = last_check_time r /\
  monitor_body lower cfg start_time fc o (begin_cycle output_dir timestamp r)
  = mkStep (set_restart (begin_cycle output_dir timestamp r))
           [Log ERROR; SetRestart StallSite; Sleep (monitor_interval cfg)]
           Continue.
Proof.
  intros Hdir Hex Hsz Hle Hother Ht.
  split; [reflexivity|]. split; [reflexivity|].
  pose proof (cycle_path_tracked timestamp) as Htr.
  unfold monitor_body. cbn [begin_cycle current_file last_size
                            last_check_time].
  rewrite Htr, Hex, Hsz, Hother. cbn [negb].
  assert (E : (sz >? last_size r) = false)
    by (rewrite Z.gtb_ltb; now apply Z.ltb_ge).
  assert (E2 : (o_now o - last_check_time r >? timeout cfg) = true)
    by (rewrite Z.gtb_ltb; now apply Z.ltb_lt).
  now rewrite E, E2.
Qed.

End SupervisorFacts.

(** ** Instances *)

Section Instances.
Import Shutdown Cleanup After Watch Supervisor.

Lemma broken_stdin_leaves_child_running_witness :
  shutdown_trace false (mkBehaviour true true None None None 0) 0
  = [(0, StdinWrite); (0, StdinFlush); (0, LogFailure)] /\
  shutdown_outcome false (mkBehaviour true true None None None 0) 0
  = Return tt /\
  running (snd (_terminate_ffmpeg false true
                  (mkBehaviour true true None None None 0)
                  (mkWorld 0 None []))) = true.
Proof.
  apply (broken_stdin_leaves_child_running false
           (mkBehaviour true true None None None 0) 0); reflexivity.
Defined.

Lemma empty_segments_always_deleted_witness :
  In "rec/fresh.mkv"
     (deleted (log (final (_cleanup_cycle ascii_lower utc "rec" 256 50 always
                                          (Some fresh_listing))))).
Proof.
  apply (proj1 (empty_segments_always_deleted ascii_lower utc "rec" 256 50
                  always fresh_listing (plain_file "fresh.mkv" 2 0)
                  (mkStat 0 2 2)
                  ltac:(right; left; reflexivity) eq_refl eq_refl eq_refl
                  eq_refl)).
Defined.

Lemma only_listed_segments_deleted_witness :
  exists e s, In e fresh_listing /\ is_mkv ascii_lower (d_name e) = true /\
              d_stat e = Some s /\
              "rec/fresh.mkv" = path_join "rec" (d_name e) /\
              always "rec/fresh.mkv" = true.
Proof.
  apply (only_listed_segments_deleted ascii_lower utc "rec" 256 50 always
                                      fresh_listing "rec/fresh.mkv").
  cbn. now left.
Defined.

Lemma within_limits_nothing_evicted_witness :
  _cleanup_cycle ascii_lower utc "rec" 256 1000 always (Some five_files)
  = Completed
      (mkCstate
         (ordered_candidates ascii_lower utc "rec" always five_files)
         (sum_sizes (files (scan ascii_lower utc "rec" always five_files)))
         (log (scan ascii_lower utc "rec" always five_files))).
Proof.
  apply (within_limits_nothing_evicted ascii_lower utc "rec" 256 1000 always
                                       five_files).
  - now vm_compute.
  - left. now vm_compute.
Defined.

Lemma cycle_completes_within_count_witness :
  exists st,
    _cleanup_cycle ascii_lower utc "rec" 2 70 (fun _ => false) (Some five_files)
    = Completed st /\
    Z.of_nat (List.length (files st)) <= 2 /\
    (total_size st <= 70 \/ files st = []).
Proof.
  apply (cycle_completes_within_count ascii_lower utc "rec" 2 70
                                      (fun _ => false) five_files).
  lia.
Defined.

Lemma negative_file_limit_raises_witness :
  exists st,
    _cleanup_cycle ascii_lower utc "rec" (-1) 70 always (Some five_files)
    = Raised IndexError st /\
    files st = [] /\
    attempted (log st)
    = map filepath
          (ordered_candidates ascii_lower utc "rec" always five_files).
Proof.
  apply (negative_file_limit_raises ascii_lower utc "rec" (-1) 70 always
                                    five_files).
  lia.
Defined.

Lemma failed_removals_exhaust_candidates_witness :
  exists st,
    _cleanup_cycle ascii_lower utc "rec" 256 70 (fun _ => false)
                   (Some five_files)
    = Completed st /\
    files st = [] /\
    attempted (log st)
    = map filepath
          (ordered_candidates ascii_lower utc "rec" (fun _ => false)
                              five_files) /\
    deleted (log st)
    = deleted (log (scan ascii_lower utc "rec" (fun _ => false)
                         five_files)) /\
    total_size st
    = sum_sizes (files (scan ascii_lower utc "rec" (fun _ => false)
                             five_files)).
Proof.
  apply (failed_removals_exhaust_candidates ascii_lower utc "rec" 256 70
                                            (fun _ => false) five_files).
  - lia.
  - repeat constructor.
  - now vm_compute.
Defined.

Lemma second_pass_removes_nothing_witness :
  exists st1 st2,
    _cleanup_cycle ascii_lower utc "rec" 256 70 always (Some five_files)
    = Completed st1 /\
    _cleanup_cycle ascii_lower utc "rec" 256 70 always
                   (Some (dir_after "rec" (deleted (log st1)) five_files))
    = Completed st2 /\
    files st2 = files st1 /\
    total_size st2 = total_size st1 /\
    deleted (log st2) = [] /\
    attempted (log st2) = [].
Proof.
  apply (second_pass_removes_nothing ascii_lower utc "rec" 256 70 always
                                     five_files).
  - cbn. repeat constructor; cbn; intuition discriminate.
  - lia.
  - repeat constructor.
Defined.

Lemma find_latest_first_of_newest_witness :
  exists pre e s post,
    two_segments = pre ++ e :: post /\
    is_mkv ascii_lower (d_name e) = true /\ d_stat e = Some s /\
    "rec/a.mkv" = path_join "rec" (d_name e) /\
    0 < st_mtime s /\
    (forall e' s', In e' pre -> is_mkv ascii_lower (d_name e') = true ->
                   d_stat e' = Some s' -> st_mtime s' < st_mtime s) /\
    (forall e' s', In e' post -> is_mkv ascii_lower (d_name e') = true ->
                   d_stat e' = Some s' -> st_mtime s' <= st_mtime s).
Proof.
  apply (find_latest_first_of_newest ascii_lower "rec" two_segments
                                     "rec/a.mkv").
  reflexivity.
Defined.

Lemma untracked_never_restarts_witness :
  restart_requests
    (r_trace (_monitor_process ascii_lower default_config 0
                [poll 20 10 []; poll 50 10 []] (init_recorder 0))) = 0%nat.
Proof.
  apply (untracked_never_restarts ascii_lower default_config 0
           [poll 20 10 []; poll 50 10 []] (init_recorder 0)).
  left. reflexivity.
Defined.

Lemma missing_file_timeout_witness :
  r_trace (_monitor_process ascii_lower default_config 0
             [mkObs false false 11 false None (Some []) None false]
             (tracking "rec/b.mkv" 0 0))
  = [Log ERROR; SetRestart CreateTimeoutSite; Sleep 1] /\
  r_status (_monitor_process ascii_lower default_config 0
              [mkObs false false 11 false None (Some []) None false]
              (tracking "rec/b.mkv" 0 0)) = Exited /\
  monitor_body ascii_lower default_config 0 false
               (mkObs false false 10 false None (Some []) None false)
               (tracking "rec/b.mkv" 0 0)
  = mkStep (tracking "rec/b.mkv" 0 0) [Sleep 1] Continue.
Proof.
  destruct (proj1 (missing_file_timeout ascii_lower default_config 0
                     (mkObs false false 11 false None (Some []) None false) []
                     (tracking "rec/b.mkv" 0 0) "rec/b.mkv"
                     eq_refl ltac:(discriminate) eq_refl eq_refl eq_refl
                     eq_refl)) as [_ H]; [now vm_compute|].
  destruct (H eq_refl) as (H1 & H2 & _).
  split; [exact H1|]. split; [exact H2|].
  apply (proj2 (missing_file_timeout ascii_lower default_config 0
                    (mkObs false false 10 false None (Some []) None false) []
                    (tracking "rec/b.mkv" 0 0) "rec/b.mkv"
                    eq_refl ltac:(discriminate) eq_refl eq_refl eq_refl
                    eq_refl)).
    now vm_compute.
Defined.

Lemma missing_file_rediscovery_witness :
  _monitor_process ascii_lower default_config 0
    [mkObs false false 7 false None (Some two_segments) None false;
     poll 40 10 []]
    (tracking "rec/gone.mkv" 0 50)
  = mkRun (mkRecorder (Some "rec/a.mkv") 7 50 false false) false [Log INFO]
          Crashed.
Proof.
  apply (proj2 (missing_file_rediscovery ascii_lower default_config 0
                  (mkObs false false 7 false None (Some two_segments) None
                         false)
                  [poll 40 10 []] (tracking "rec/gone.mkv" 0 50)
                  "rec/gone.mkv" "rec/a.mkv"
                  eq_refl ltac:(discriminate) eq_refl eq_refl eq_refl
                  eq_refl)).
  reflexivity.
Defined.

Lemma switch_instead_of_restart_witness :
  monitor_body ascii_lower default_config 0 false (poll 90 100 two_segments)
               (tracking "rec/b.mkv" 5 100)
  = mkStep (mkRecorder (Some "rec/a.mkv") 90 100 false false) [Log INFO]
           Continue.
Proof.
  apply (switch_instead_of_restart ascii_lower default_config 0 false
           (poll 90 100 two_segments) (tracking "rec/b.mkv" 5 100)
           "rec/b.mkv" "rec/a.mkv" 100 100);
    [reflexivity | discriminate | reflexivity | reflexivity | now vm_compute
     | reflexivity | reflexivity].
Defined.

Lemma no_progress_unless_larger_witness :
  monitor_body ascii_lower default_config 0 false (poll 40 20 [])
               (tracking "rec/b.mkv" 5 1000)
  = mkStep (set_restart (tracking "rec/b.mkv" 5 1000))
           [Log ERROR; SetRestart StallSite; Sleep 30] Continue.
Proof.
  apply (proj1 (no_progress_unless_larger ascii_lower default_config 0 false
                  (poll 40 20 []) (tracking "rec/b.mkv" 5 1000)
                  "rec/b.mkv" 20
                  eq_refl ltac:(discriminate) eq_refl eq_refl
                  ltac:(now vm_compute) eq_refl)).
  now vm_compute.
Defined.

Lemma restart_beats_exit_code_witness :
  wait_loop (quiet 2 ++ [mkTick (Some 0) true false]) (init_recorder 0)
  = (repeat Slept 2 ++ [TerminateCalled],
     see_flags (mkTick (Some 0) true false) (init_recorder 0), Broke).
Proof.
  apply (restart_beats_exit_code 2 (mkTick (Some 0) true false) []
                                 (init_recorder 0));
    reflexivity.
Defined.

Lemma expected_exit_ends_recording_witness :
  snd (start_recording "rec"
         [mkCycle "t1" true (quiet 2 ++ [mkTick (Some 255) false false])
                  false false;
          mkCycle "t2" true (quiet 5) false false]
         (init_recorder 0))
  = Returned.
Proof.
  apply (proj1 (proj2 (expected_exit_ends_recording "rec"
           (mkCycle "t1" true (quiet 2 ++ [mkTick (Some 255) false false])
                    false false)
           [mkCycle "t2" true (quiet 5) false false] 2 255 []
           (init_recorder 0)
           eq_refl eq_refl eq_refl eq_refl eq_refl
           (or_introl eq_refl)))).
Defined.

Lemma abnormal_exit_starts_next_cycle_witness :
  snd (start_recording "rec"
         [mkCycle "t1" true (quiet 2 ++ [mkTick (Some 1) false false])
                  false false;
          mkCycle "t2" true (quiet 5) false false]
         (init_recorder 0))
  = snd (start_recording "rec"
           [mkCycle "t2" true (quiet 5) false false]
           (begin_cycle "rec" "t1" (init_recorder 0))).
Proof.
  rewrite (abnormal_exit_starts_next_cycle "rec"
             (mkCycle "t1" true (quiet 2 ++ [mkTick (Some 1) false false])
                      false false)
             [mkCycle "t2" true (quiet 5) false false] 2 1 []
             (init_recorder 0)
             eq_refl eq_refl eq_refl eq_refl eq_refl
             ltac:(lia) ltac:(lia)).
  reflexivity.
Defined.

Lemma failed_start_spoils_next_cycle_witness :
  exists r',
    restart_event r' = false /\
    start_recording "rec"
      [mkCycle "t1" false [] false false;
       mkCycle "t2" true [mkTick (Some 0) false false] false false]
      (init_recorder 0)
    = ([CycleFailed; Spawned (path_join "rec" "t2.mkv");
        TerminateCalled; RestartCleared]
         ++ fst (fst (start_recording "rec" [] r')),
       snd (fst (start_recording "rec" [] r')),
       snd (start_recording "rec" [] r')).
Proof.
  apply (failed_start_spoils_next_cycle "rec"
           (mkCycle "t1" false [] false false)
           (mkCycle "t2" true [mkTick (Some 0) false false] false false)
           [] (mkTick (Some 0) false false) [] (init_recorder 0));
    reflexivity.
Defined.

Lemma new_cycle_inherits_progress_witness :
  monitor_body ascii_lower default_config 0 false (poll 40 20 [])
               (begin_cycle "rec" "t2" (tracking "rec/t1.mkv" 5 1000))
  = mkStep (set_restart (begin_cycle "rec" "t2"
                                     (tracking "rec/t1.mkv" 5 1000)))
           [Log ERROR; SetRestart StallSite; Sleep 30] Continue.
Proof.
  apply (new_cycle_inherits_progress "rec" ascii_lower default_config 0 false
           (poll 40 20 []) (tracking "rec/t1.mkv" 5 1000) "t2" 20
           eq_refl eq_refl eq_refl ltac:(now vm_compute) eq_refl
           ltac:(now vm_compute)).
Defined.

End Instances.
